(** * pundun.client: the multiplexed request/response transport

    A shallow embedding of [src/pundun/client.py] (class [Client]) and the
    properties of its frame codec, sequence counters, correlation table
    ([message_dict]), listener and request executor ([_write_pdu]). *)

From Stdlib Require Import ZArith List Lia Bool String.
From Stdlib.Strings Require Import Byte.
From stdpp Require Import base option list gmap.

Local Open Scope Z_scope.

(** ** Python values used by the client *)

Abbreviation bytes := (list byte).

(** The exceptions that the modelled code paths can raise. *)
Inductive Exn :=
| OverflowError        (* int.to_bytes: value does not fit / is negative *)
| ValueError           (* StreamReader.readexactly with a negative size *)
| IncompleteReadError  (* StreamReader.readexactly: EOF before n bytes *)
| QueueFull            (* Queue.put_nowait on a full queue *)
| KeyError             (* del d[k] with k absent *)
| TimeoutError         (* asyncio.wait_for: deadline passed *)
| CancelledError       (* the awaiting task was cancelled *)
| DecodeError.         (* protobuf ParseFromString on malformed input *)

Inductive result (A : Type) :=
| Ok (a : A)
| Raise (e : Exn).
Arguments Ok {A} a.
Arguments Raise {A} e.

Module PyInt.

Definition byte_of_Z (z : Z) : byte :=
  default x00 (Byte.of_N (Z.to_N (z mod 256))).

Definition Z_of_byte (b : byte) : Z := Z.of_N (Byte.to_N b).

(** [int.from_bytes(bs, byteorder='big')] (unsigned). *)
Definition from_bytes (bs : bytes) : Z :=
  fold_left (fun acc b => 256 * acc + Z_of_byte b) bs 0.

(** The [len] low base-256 digits of [n], most significant first. *)
Fixpoint digits (len : nat) (n : Z) : bytes :=
  match len with
  | O => []
  | S k => digits k (n / 256) ++ [byte_of_Z (n mod 256)]
  end.

(** [n.to_bytes(len, byteorder='big')]: raises [OverflowError] when [n] is
    negative or needs more than [len] bytes. *)
Definition to_bytes (n : Z) (len : nat) : result bytes :=
  if (n <? 0) || (256 ^ Z.of_nat len <=? n) then Raise OverflowError
  else Ok (digits len n).

End PyInt.

(** ** Protocol messages

    [apollo_pb2.ApolloPdu] is generated protobuf code outside the client
    module.  The record keeps the fields that [client.py] reads or writes
    and the rest of the message as opaque bytes; the protobuf wire codec is
    an interface. *)

Record ApolloPdu := mkPdu {
  version_major : Z;
  version_minor : Z;
  transaction_id : Z;
  procedure : bytes;           (* the oneof body, opaque to the transport *)
  error_transport : string     (* rpdu.error.transport *)
}.

(** [apollo.ApolloPdu()] *)
Definition empty_pdu : ApolloPdu := mkPdu 0 0 0 [] EmptyString.

Definition set_transaction_id (t : Z) (p : ApolloPdu) : ApolloPdu :=
  mkPdu (version_major p) (version_minor p) t (procedure p) (error_transport p).

Definition set_error_transport (s : string) (p : ApolloPdu) : ApolloPdu :=
  mkPdu (version_major p) (version_minor p) (transaction_id p) (procedure p) s.

Class ApolloCodec := {
  SerializeToString : ApolloPdu -> bytes;
  (** [None] stands for [DecodeError]. *)
  ParseFromString : bytes -> option ApolloPdu
}.

(** How a call of [_write_pdu] ends. *)
Inductive Outcome :=
| Returned (rpdu : ApolloPdu)
| Raised (e : Exn).

(** ** The client object and the event loop's state *)

(** An [asyncio.Queue]. *)
Record Queue := mkQueue {
  maxsize : Z;
  items : list bytes
}.

Inductive ListenerState :=
| Running
| Cancelling               (* task.cancel() requested, not yet delivered *)
| Stopped (reason : Exn).  (* left the loop through [break] *)

(** A call of [_write_pdu] suspended at (or finished after) its [await]:
    the locals [cid] and [q], the deadline of [wait_for], whether its task
    was cancelled, and its outcome once it has finished. *)
Record SendTask := mkSend {
  s_cid : Z;
  s_q : nat;
  s_deadline : Z;
  s_cancel : bool;
  s_outcome : option Outcome
}.

Record Client := mkClient {
  tid : Z;                      (* self.tid *)
  cid : Z;                      (* self.cid *)
  message_dict : gmap Z nat;    (* self.message_dict: cid -> Queue object *)
  writer : list bytes;          (* arguments of self.writer.write, latest first *)
  disconnected : bool;          (* scram.disconnect was called on the writer *)
  reader : bytes;               (* self.reader: received, not yet read *)
  reader_eof : bool;            (* the peer closed the stream *)
  queues : list Queue;          (* the Queue objects, by identity *)
  listener : ListenerState;     (* the task running self._listener() *)
  sends : list SendTask;        (* the tasks running self._write_pdu(..) *)
  clock : Z                     (* loop.time(), in seconds *)
}.

Definition with_tid v c :=
  mkClient v (cid c) (message_dict c) (writer c) (disconnected c) (reader c)
           (reader_eof c) (queues c) (listener c) (sends c) (clock c).
Definition with_cid v c :=
  mkClient (tid c) v (message_dict c) (writer c) (disconnected c) (reader c)
           (reader_eof c) (queues c) (listener c) (sends c) (clock c).
Definition with_message_dict v c :=
  mkClient (tid c) (cid c) v (writer c) (disconnected c) (reader c)
           (reader_eof c) (queues c) (listener c) (sends c) (clock c).
Definition with_writer v c :=
  mkClient (tid c) (cid c) (message_dict c) v (disconnected c) (reader c)
           (reader_eof c) (queues c) (listener c) (sends c) (clock c).
Definition with_disconnected v c :=
  mkClient (tid c) (cid c) (message_dict c) (writer c) v (reader c)
           (reader_eof c) (queues c) (listener c) (sends c) (clock c).
Definition with_reader v c :=
  mkClient (tid c) (cid c) (message_dict c) (writer c) (disconnected c) v
           (reader_eof c) (queues c) (listener c) (sends c) (clock c).
Definition with_reader_eof v c :=
  mkClient (tid c) (cid c) (message_dict c) (writer c) (disconnected c) (reader c)
           v (queues c) (listener c) (sends c) (clock c).
Definition with_queues v c :=
  mkClient (tid c) (cid c) (message_dict c) (writer c) (disconnected c) (reader c)
           (reader_eof c) v (listener c) (sends c) (clock c).
Definition with_listener v c :=
  mkClient (tid c) (cid c) (message_dict c) (writer c) (disconnected c) (reader c)
           (reader_eof c) (queues c) v (sends c) (clock c).
Definition with_sends v c :=
  mkClient (tid c) (cid c) (message_dict c) (writer c) (disconnected c) (reader c)
           (reader_eof c) (queues c) (listener c) v (clock c).
Definition with_clock v c :=
  mkClient (tid c) (cid c) (message_dict c) (writer c) (disconnected c) (reader c)
           (reader_eof c) (queues c) (listener c) (sends c) v.

(** [Client.__init__]: counters at 0, an empty [message_dict], the connection
    returned by [_connect], and the listener task scheduled. *)
Definition init : Client :=
  mkClient 0 0 ∅ [] false [] false [] Running [] 0.

(** Code that updates the state and may raise. *)
Definition M (A : Type) : Type := Client -> Client * result A.

Definition ret {A} (a : A) : M A := fun c => (c, Ok a).
Definition raise {A} (e : Exn) : M A := fun c => (c, Raise e).
Definition bind {A B} (m : M A) (k : A -> M B) : M B :=
  fun c => match m c with
           | (c', Ok a) => k a c'
           | (c', Raise e) => (c', Raise e)
           end.
Definition lift {A} (r : result A) : M A := fun c => (c, r).
Definition modify (f : Client -> Client) : M unit := fun c => (f c, Ok tt).

Notation "x <~ m ; k" := (bind m (fun x => k))
  (at level 20, m at level 100, k at level 200, only parsing).
Notation "m ;; k" := (bind m (fun _ => k))
  (at level 100, k at level 200, right associativity, only parsing).

(** ** Sequence counters (client.py, lines 415-429) *)

Definition TID_MAX : Z := 4294967295.
Definition CID_MAX : Z := 65535.

Definition _get_tid : M Z := fun c =>
  let t := tid c in
  (if tid c =? TID_MAX then with_tid 0 c else with_tid (tid c + 1) c, Ok t).

Definition _get_cid : M Z := fun c =>
  let i := cid c in
  (if cid c =? CID_MAX then with_cid 0 c else with_cid (cid c + 1) c, Ok i).

(** [n] successive calls of [_get_cid], with the values they return. *)
Fixpoint get_cids (n : nat) (c : Client) : list Z * Client :=
  match n with
  | O => ([], c)
  | S k => let c1 := fst (_get_cid c) in
           let '(l, c2) := get_cids k c1 in
           (cid c :: l, c2)
  end.

Fixpoint get_tids (n : nat) (c : Client) : list Z * Client :=
  match n with
  | O => ([], c)
  | S k => let c1 := fst (_get_tid c) in
           let '(l, c2) := get_tids k c1 in
           (tid c :: l, c2)
  end.

(** ** Frame codec *)

(** The frame that [_write_pdu] builds (lines 394-399):
    [b''.join([len_bytes, cid_bytes, data])]. *)
Definition encode (cid : Z) (data : bytes) : result bytes :=
  match PyInt.to_bytes cid 2 with
  | Raise e => Raise e
  | Ok cid_bytes =>
      let length := Z.of_nat (length data) + 2 in
      match PyInt.to_bytes length 4 with
      | Raise e => Raise e
      | Ok len_bytes => Ok (len_bytes ++ cid_bytes ++ data)
      end
  end.

(** What an [await reader.readexactly(n)] yields on the buffered stream:
    the bytes read and the buffer after them, or an exception and the buffer
    it leaves behind. *)
Inductive Read (A : Type) :=
| Got (a : A) (rest : bytes)
| Fails (e : Exn) (rest : bytes)
| Blocks.          (* not enough bytes yet and no EOF: the reader waits *)
Arguments Got {A} a rest.
Arguments Fails {A} e rest.
Arguments Blocks {A}.

(** [StreamReader.readexactly(n)] of asyncio (Python 3.5.2 and later).  A
    negative size raises [ValueError] before the buffer is looked at; when
    EOF comes before [n] bytes, the buffer is cleared and its content leaves
    with the [IncompleteReadError]. *)
Definition readexactly (n : Z) (buf : bytes) (eof : bool) : Read bytes :=
  if n <? 0 then Fails ValueError buf
  else if Z.of_nat (length buf) <? n then
         (if eof then Fails IncompleteReadError [] else Blocks)
  else Got (take (Z.to_nat n) buf) (drop (Z.to_nat n) buf).

(** The three reads of one listener iteration (lines 55-59).  A read that
    raises does so on the buffer the reads before it have left: the bytes
    they took are gone.  While the frame at the head of the buffer is not
    complete, its bytes are kept together: the buffer stands for the bytes
    the suspended listener already holds in [length] and [cid], followed by
    those still in the stream. *)
Definition decode (buf : bytes) (eof : bool) : Read (Z * bytes) :=
  match readexactly 4 buf eof with
  | Fails e rest => Fails e rest
  | Blocks => Blocks
  | Got len_bytes buf1 =>
      let length := PyInt.from_bytes len_bytes in
      match readexactly 2 buf1 eof with
      | Fails e rest => Fails e rest
      | Blocks => Blocks
      | Got cid_bytes buf2 =>
          let cid := PyInt.from_bytes cid_bytes in
          match readexactly (length - 2) buf2 eof with
          | Fails e rest => Fails e rest
          | Blocks => Blocks
          | Got data buf3 => Got (cid, data) buf3
          end
      end
  end.

(** The length field of the frame at the head of the buffer. *)
Definition claimed_length (buf : bytes) : Z := PyInt.from_bytes (take 4 buf).

(** ** The listener (client.py, lines 50-74) *)

(** [Queue.put_nowait(item)]. *)
Definition put_nowait (item : bytes) (q : Queue) : result Queue :=
  if (0 <? maxsize q) && (maxsize q <=? Z.of_nat (length (items q)))
  then Raise QueueFull
  else Ok (mkQueue (maxsize q) (items q ++ [item])).

(** One turn of the [while] loop, run by the event loop when the listener
    can make progress; [None] when it cannot (it waits for bytes, or it has
    left the loop).  [self.loop.is_running()] holds whenever the loop runs
    the listener.  A cancellation reaches the listener at its [await].  When
    a read raises, the bare [except] leaves the loop with the stream as that
    read has left it. *)
Definition _listener_iter (c : Client) : option Client :=
  match listener c with
  | Stopped _ => None
  | Cancelling => Some (with_listener (Stopped CancelledError) c)
  | Running =>
      match decode (reader c) (reader_eof c) with
      | Blocks => None
      | Fails e rest => Some (with_listener (Stopped e) (with_reader rest c))
      | Got (cid, data) rest =>
          let c1 := with_reader rest c in
          match message_dict c !! cid with
          | None => Some c1                 (* 'no waiting q for cid' *)
          | Some q =>
              match queues c !! q with
              | None => Some c1             (* objects in the dict are live *)
              | Some qu =>
                  match put_nowait data qu with
                  | Raise e => Some (with_listener (Stopped e) c1)
                  | Ok qu' => Some (with_queues (<[q := qu']> (queues c)) c1)
                  end
              end
          end
      end
  end.

(** ** The request executor (client.py, lines 388-413) *)

Section Executor.
Context `{ApolloCodec}.

(** Lines 389-401: from the tid allocation to [self.writer.write(msg)];
    returns the local [cid]. *)
Definition _write_pdu_send (pdu : ApolloPdu) : M Z :=
  t <~ _get_tid;
  let data := SerializeToString (set_transaction_id t pdu) in
  i <~ _get_cid;
  msg <~ lift (encode i data);
  modify (fun c => with_writer (msg :: writer c) c);;
  ret i.

(** Lines 402-407, up to the suspension at [await]: the queue is created,
    stored under [cid], and its getter awaited for at most 60 seconds.
    Returns the index of the suspended call among [sends]. *)
Definition _write_pdu_register (i : Z) : M nat := fun c =>
  let q := length (queues c) in
  let c1 := with_queues (queues c ++ [mkQueue 1 []]) c in
  let c2 := with_message_dict (<[i := q]> (message_dict c1)) c1 in
  let t := length (sends c2) in
  (with_sends (sends c2 ++ [mkSend i q (clock c2 + 60) false None]) c2, Ok t).

(** [_write_pdu] from its start to its [await]; no other coroutine runs in
    between. *)
Definition _write_pdu_begin (pdu : ApolloPdu) : M nat :=
  i <~ _write_pdu_send pdu;
  _write_pdu_register i.

(** What the [await] yields. *)
Inductive Awaited :=
| Item (rdata : bytes)
| Throws (e : Exn).

(** [await asyncio.wait_for(Task(q.get()), timeout=60)] as the event loop
    resolves it for a suspended call: [None] while it stays suspended.  The
    getter, the timer and the waiter of [wait_for] are taken together at the
    moment the call is resumed: a response stays in [items] from the
    listener's [put_nowait] until the call is resumed with it, and a call
    resumed with its queue empty after its deadline gets [TimeoutError].
    With a response queued and the deadline passed, asyncio gives the
    response when it was queued before the timer fired and [TimeoutError]
    otherwise; a resumption in such a state stands for the first of the
    two. *)
Definition wait_for (st : SendTask) (c : Client) : option (Awaited * Client) :=
  if s_cancel st then Some (Throws CancelledError, c)
  else match queues c !! s_q st with
       | Some (mkQueue m (d :: rest)) =>
           Some (Item d, with_queues (<[s_q st := mkQueue m rest]> (queues c)) c)
       | _ => if s_deadline st <=? clock c then Some (Throws TimeoutError, c)
              else None
       end.

(** [del self.message_dict[cid]] *)
Definition del_message (i : Z) : M unit := fun c =>
  match message_dict c !! i with
  | Some _ => (with_message_dict (delete i (message_dict c)) c, Ok tt)
  | None => (c, Raise KeyError)
  end.

(** Lines 405-413, from the resumption at [await] to the end. *)
Definition _write_pdu_finish (aw : Awaited) (i : Z) : M ApolloPdu :=
  rpdu <~ match aw with
          | Item rdata =>
              match ParseFromString rdata with
              | Some r => ret r
              | None => raise DecodeError
              end
          | Throws TimeoutError => ret (set_error_transport "timeout" empty_pdu)
          | Throws e => raise e
          end;
  del_message i;;
  ret rpdu.

Definition finished (o : Outcome) (st : SendTask) : SendTask :=
  mkSend (s_cid st) (s_q st) (s_deadline st) (s_cancel st) (Some o).

(** The event loop resumes suspended call [t]; [None] when there is
    nothing to resume. *)
Definition _write_pdu_resume (t : nat) (c : Client) : option Client :=
  match sends c !! t with
  | None => None
  | Some st =>
      match s_outcome st with
      | Some _ => None
      | None =>
          match wait_for st c with
          | None => None
          | Some (aw, c1) =>
              let '(c2, r) := _write_pdu_finish aw (s_cid st) c1 in
              let o := match r with Ok rpdu => Returned rpdu | Raise e => Raised e end in
              Some (with_sends (<[t := finished o st]> (sends c2)) c2)
          end
      end
  end.

(** ** Teardown (client.py, lines 29-35 and 85-86) *)

Definition cancel (st : SendTask) : SendTask :=
  match s_outcome st with
  | Some _ => st
  | None => mkSend (s_cid st) (s_q st) (s_deadline st) true None
  end.

Definition _cancel_all_tasks (c : Client) : Client :=
  let l := match listener c with Running => Cancelling | l => l end in
  with_sends (map cancel (sends c)) (with_listener l c).

(** [scram.disconnect(streamwriter=self.writer, loop=self.loop)] receives
    the writer and the loop only. *)
Definition _disconnect (c : Client) : Client := with_disconnected true c.

Definition cleanup (c : Client) : Client := _disconnect (_cancel_all_tasks c).

(** ** Executions: what the event loop and the peer do, in order *)

Inductive Event :=
| Call (pdu : ApolloPdu)   (* a caller enters _write_pdu(pdu) *)
| Receive (bs : bytes)     (* bytes from the peer reach the reader *)
| Eof                      (* the peer closes the stream *)
| Listen                   (* the listener runs one iteration *)
| Resume (t : nat)         (* suspended call [t] is resumed *)
| Tick (dt : Z)            (* [dt] seconds pass *)
| Cleanup.                 (* self.cleanup() *)

Definition step (c : Client) (e : Event) : Client :=
  match e with
  | Call pdu => fst (_write_pdu_begin pdu c)
  | Receive bs => with_reader (reader c ++ bs) c
  | Eof => with_reader_eof true c
  | Listen => default c (_listener_iter c)
  | Resume t => default c (_write_pdu_resume t c)
  | Tick dt => with_clock (clock c + Z.max 0 dt) c
  | Cleanup => cleanup c
  end.

Definition run (es : list Event) (c : Client) : Client := fold_left step es c.

(** The outcome of call [t], once it has finished. *)
Definition outcome (t : nat) (c : Client) : option Outcome :=
  st ← sends c !! t; s_outcome st.

(** A call is live from its registration until it finishes. *)
Definition live (st : SendTask) : bool :=
  match s_outcome st with None => true | Some _ => false end.

Definition live_cid (c : Client) (i : Z) : bool :=
  existsb (fun st => live st && (s_cid st =? i)) (sends c).

(** In the execution [es] from [c], every call is given a cid that no
    live call holds. *)
Fixpoint distinct_cids (es : list Event) (c : Client) : bool :=
  match es with
  | [] => true
  | e :: es' =>
      match e with Call _ => negb (live_cid c (cid c)) | _ => true end
      && distinct_cids es' (step c e)
  end.

(** The client once [_get_tid] and [_get_cid] have run. *)
Definition allocated (c : Client) : Client := fst (_get_cid (fst (_get_tid c))).

(** The state in which a successful [_write_pdu_begin] suspends. *)
Definition registered (i : Z) (msg : bytes) (c : Client) : Client :=
  let c1 := with_writer (msg :: writer c) (allocated c) in
  with_sends (sends c ++ [mkSend i (length (queues c)) (clock c + 60) false None])
    (with_message_dict (<[i := length (queues c)]> (message_dict c))
       (with_queues (queues c ++ [mkQueue 1 []]) c1)).

(** The rpdu of the [except asyncio.TimeoutError] branch. *)
Definition timeout_rpdu : ApolloPdu := set_error_transport "timeout" empty_pdu.

(** The outcome of a call whose [await] yielded [rdata]. *)
Definition parsed (rdata : bytes) : Outcome :=
  match ParseFromString rdata with
  | Some r => Returned r
  | None => Raised DecodeError
  end.

End Executor.

(** A codec with a fixed layout, for running the client on examples: four
    bytes of transaction id, then the body. *)
#[export] Instance raw_codec : ApolloCodec := {|
  SerializeToString p := PyInt.digits 4 (transaction_id p) ++ procedure p;
  ParseFromString bs :=
    if (length bs <? 4)%nat then None
    else Some (mkPdu 0 1 (PyInt.from_bytes (take 4 bs)) (drop 4 bs) EmptyString)
|}.

(** [_make_pdu()] with a one-byte body. *)
Definition ping : ApolloPdu := mkPdu 0 1 0 [x50] EmptyString.

(** ** Vocabulary of the properties *)

Section Vocabulary.
Context `{ApolloCodec}.

(** The number of calls made in an execution. *)
Fixpoint calls (es : list Event) : nat :=
  match es with
  | [] => O
  | Call _ :: es' => S (calls es')
  | _ :: es' => calls es'
  end.

(** An event that respects the distinctness of cids. *)
Definition allowed (c : Client) (e : Event) : Prop :=
  match e with Call _ => live_cid c (cid c) = false | _ => True end.

(** What holds of the table in every execution from a fresh client in
    which no call is given the cid of a live call: a live call's cid leads
    to its own queue, every queue belongs to one call, and every entry was
    put there by a call. *)
Record Inv (c : Client) : Prop := mkInv {
  inv_live_entry : forall t st,
    sends c !! t = Some st -> s_outcome st = None ->
    message_dict c !! s_cid st = Some (s_q st);
  inv_queue_alloc : forall t st,
    sends c !! t = Some st -> (s_q st < length (queues c))%nat;
  inv_queue_inj : forall t t' st st',
    sends c !! t = Some st -> sends c !! t' = Some st' ->
    s_q st = s_q st' -> t = t';
  inv_entry_owner : forall i q,
    message_dict c !! i = Some q ->
    exists t st, sends c !! t = Some st /\ s_cid st = i /\ s_q st = q
}.

(** [c'] has the calls of [c], with their cid and queue, none revived. *)
Definition same_calls (c c' : Client) : Prop :=
  length (sends c') = length (sends c) /\
  forall t st', sends c' !! t = Some st' ->
    exists st, sends c !! t = Some st /\
               s_cid st' = s_cid st /\ s_q st' = s_q st /\
               (s_outcome st' = None -> s_outcome st = None).

(** In the execution [es], a frame bearing cid [i] with payload [d] was
    decoded by the listener while call [t], holding cid [i], was live. *)
Definition arrived (es : list Event) (t : nat) (i : Z) (d : bytes) : Prop :=
  exists es1 es2 rest st,
    es = es1 ++ Listen :: es2 /\
    listener (run es1 init) = Running /\
    decode (reader (run es1 init)) (reader_eof (run es1 init)) = Got (i, d) rest /\
    sends (run es1 init) !! t = Some st /\
    s_outcome st = None /\
    s_cid st = i.

(** Every response in a queue of [c'] was already in that queue in [c]. *)
Definition no_gain (c c' : Client) : Prop :=
  forall q qu', queues c' !! q = Some qu' ->
    match queues c !! q with
    | Some qu => items qu' `suffix_of` items qu
    | None => items qu' = []
    end.

End Vocabulary.

(** Three calls answered in fully reversed order. *)
Definition reversed_run : list Event :=
  [Call ping; Call ping; Call ping;
   Receive ([x00; x00; x00; x07; x00; x02; x00; x00; x00; x02; x43]
            ++ [x00; x00; x00; x07; x00; x01; x00; x00; x00; x01; x42]
            ++ [x00; x00; x00; x07; x00; x00; x00; x00; x00; x00; x41]);
   Listen; Listen; Listen].

(** * Properties *)

(** ** Python integers and bytes *)

Module PyIntFacts.
Import PyInt.

Lemma Z_of_byte_range b : 0 <= Z_of_byte b < 256.
Proof.
  unfold Z_of_byte. pose proof (Byte.to_N_bounded b). lia.
Qed.

Lemma Z_of_byte_of_Z z : Z_of_byte (byte_of_Z z) = z mod 256.
Proof.
  unfold Z_of_byte, byte_of_Z.
  assert (Hr : 0 <= z mod 256 < 256) by (apply Z.mod_pos_bound; lia).
  destruct (Byte.of_N (Z.to_N (z mod 256))) as [b|] eqn:Hb.
  - apply Byte.to_of_N in Hb. simpl. rewrite Hb. lia.
  - apply Byte.of_N_None_iff in Hb. lia.
Qed.

Lemma from_bytes_snoc l b : from_bytes (l ++ [b]) = 256 * from_bytes l + Z_of_byte b.
Proof. unfold from_bytes. by rewrite fold_left_app. Qed.

Lemma from_bytes_nonneg l : 0 <= from_bytes l.
Proof.
  induction l as [|b l IH] using rev_ind; [done|].
  rewrite from_bytes_snoc. pose proof (Z_of_byte_range b). lia.
Qed.

Lemma from_bytes_bound l : from_bytes l < 256 ^ Z.of_nat (length l).
Proof.
  induction l as [|b l IH] using rev_ind; [done|].
  rewrite from_bytes_snoc, length_app. simpl length.
  replace (Z.of_nat (length l + 1)) with (Z.succ (Z.of_nat (length l))) by lia.
  rewrite Z.pow_succ_r by lia.
  pose proof (Z_of_byte_range b). lia.
Qed.

Lemma length_digits len n : length (digits len n) = len.
Proof.
  revert n. induction len as [|k IH]; intros n; simpl; [done|].
  rewrite length_app, IH. simpl. lia.
Qed.

Lemma from_bytes_digits len n :
  0 <= n < 256 ^ Z.of_nat len -> from_bytes (digits len n) = n.
Proof.
  revert n. induction len as [|k IH]; intros n Hn.
  - simpl in *. unfold from_bytes. simpl. lia.
  - cbn [digits]. rewrite from_bytes_snoc, Z_of_byte_of_Z.
    rewrite IH; [rewrite Z.mod_mod by lia; pose proof (Z.div_mod n 256 ltac:(lia)); lia|].
    replace (Z.of_nat (S k)) with (Z.succ (Z.of_nat k)) in Hn by lia.
    rewrite Z.pow_succ_r in Hn by lia.
    split; [apply Z.div_pos; lia|].
    apply Z.div_lt_upper_bound; lia.
Qed.

Lemma to_bytes_ok n len :
  0 <= n < 256 ^ Z.of_nat len -> to_bytes n len = Ok (digits len n).
Proof.
  intros Hn. unfold to_bytes.
  rewrite (proj2 (Z.ltb_ge n 0)) by lia.
  by rewrite (proj2 (Z.leb_gt _ _)) by lia.
Qed.

Lemma to_bytes_overflow n len :
  256 ^ Z.of_nat len <= n -> to_bytes n len = Raise OverflowError.
Proof.
  intros Hn. unfold to_bytes.
  rewrite (proj2 (Z.leb_le _ _)) by lia.
  by rewrite orb_true_r.
Qed.

End PyIntFacts.

(** ** Frame codec *)

Section CodecFacts.
Import PyInt PyIntFacts.

Lemma encode_ok i data :
  0 <= i <= 65535 ->
  Z.of_nat (length data) + 2 < 4294967296 ->
  encode i data
  = Ok (digits 4 (Z.of_nat (length data) + 2) ++ digits 2 i ++ data).
Proof.
  intros Hi Hlen. unfold encode.
  rewrite (to_bytes_ok i 2) by (change (256 ^ Z.of_nat 2) with 65536; lia).
  by rewrite to_bytes_ok by (change (256 ^ Z.of_nat 4) with 4294967296; lia).
Qed.

Lemma encode_overflow i data :
  0 <= i <= 65535 ->
  4294967296 <= Z.of_nat (length data) + 2 ->
  encode i data = Raise OverflowError.
Proof.
  intros Hi Hlen. unfold encode.
  rewrite (to_bytes_ok i 2) by (change (256 ^ Z.of_nat 2) with 65536; lia).
  by rewrite to_bytes_overflow by (change (256 ^ Z.of_nat 4) with 4294967296; lia).
Qed.

Lemma readexactly_app pre rest eof :
  readexactly (Z.of_nat (length pre)) (pre ++ rest) eof = Got pre rest.
Proof.
  unfold readexactly.
  rewrite (proj2 (Z.ltb_ge _ 0)) by lia.
  rewrite (proj2 (Z.ltb_ge _ _)) by (rewrite length_app; lia).
  by rewrite Nat2Z.id, take_app_length, drop_app_length.
Qed.

Lemma readexactly_prefix n pre rest eof :
  n = Z.of_nat (length pre) -> readexactly n (pre ++ rest) eof = Got pre rest.
Proof. intros ->. apply readexactly_app. Qed.

Lemma decode_frame len i data rest eof :
  0 <= i <= 65535 ->
  len = Z.of_nat (length data) + 2 ->
  len < 4294967296 ->
  decode (digits 4 len ++ digits 2 i ++ data ++ rest) eof = Got (i, data) rest.
Proof.
  intros Hi Hlen Hmax. unfold decode.
  rewrite (readexactly_prefix 4) by by rewrite length_digits.
  rewrite (readexactly_prefix 2) by by rewrite length_digits.
  rewrite from_bytes_digits by (change (256 ^ Z.of_nat 4) with 4294967296; lia).
  rewrite (readexactly_prefix (len - 2)) by lia.
  by rewrite from_bytes_digits by (change (256 ^ Z.of_nat 2) with 65536; lia).
Qed.

Lemma encode_Ok_inv i data msg :
  encode i data = Ok msg ->
  0 <= i <= 65535 /\ Z.of_nat (length data) + 2 < 4294967296.
Proof.
  unfold encode, to_bytes. intros Henc.
  destruct ((i <? 0) || (256 ^ Z.of_nat 2 <=? i)) eqn:Hi; [discriminate|].
  destruct ((_ <? 0) || (256 ^ Z.of_nat 4 <=? _)) eqn:Hl; [discriminate|].
  apply orb_false_elim in Hi as [Hi1 Hi2], Hl as [Hl1 Hl2].
  apply Z.ltb_ge in Hi1, Hl1. apply Z.leb_gt in Hi2, Hl2.
  change (256 ^ Z.of_nat 2) with 65536 in Hi2.
  change (256 ^ Z.of_nat 4) with 4294967296 in Hl2.
  lia.
Qed.

Lemma encode_decode i data msg rest eof :
  encode i data = Ok msg -> decode (msg ++ rest) eof = Got (i, data) rest.
Proof.
  intros Henc. destruct (encode_Ok_inv _ _ _ Henc) as [Hi Hl].
  rewrite encode_ok in Henc by lia.
  assert (msg = digits 4 (Z.of_nat (length data) + 2) ++ digits 2 i ++ data)
    as -> by congruence.
  rewrite <- !app_assoc. apply decode_frame; lia.
Qed.

Lemma claimed_length_range buf : 0 <= claimed_length buf < 4294967296.
Proof.
  unfold claimed_length. split; [apply from_bytes_nonneg|].
  eapply Z.lt_le_trans; [apply from_bytes_bound|].
  change 4294967296 with (256 ^ 4). apply Z.pow_le_mono_r; [lia|].
  rewrite length_take. lia.
Qed.

Lemma split_header (buf : bytes) :
  (6 <= length buf)%nat ->
  buf = take 4 buf ++ take 2 (drop 4 buf) ++ drop 6 buf.
Proof.
  intros Hlen.
  rewrite <- (take_drop 4 buf) at 1. f_equal.
  rewrite <- (take_drop 2 (drop 4 buf)) at 1. f_equal.
  by rewrite drop_drop.
Qed.

(** What one decoding attempt does with a complete header, by the value
    of its length field. *)
Lemma decode_by_length (buf : bytes) eof :
  (6 <= length buf)%nat ->
  decode buf eof =
    let len := claimed_length buf in
    if len <? 2 then Fails ValueError (drop 6 buf)
    else if Z.of_nat (length buf) - 6 <? len - 2 then
           (if eof then Fails IncompleteReadError [] else Blocks)
    else Got (from_bytes (take 2 (drop 4 buf)),
              take (Z.to_nat (len - 2)) (drop 6 buf))
             (drop (Z.to_nat (len - 2)) (drop 6 buf)).
Proof.
  intros Hlen. cbv zeta. unfold claimed_length.
  rewrite (split_header buf Hlen) at 1. unfold decode.
  rewrite (readexactly_prefix 4) by (rewrite length_take; lia).
  rewrite (readexactly_prefix 2) by (rewrite length_take, length_drop; lia).
  unfold readexactly. rewrite length_drop.
  replace (from_bytes (take 4 buf) - 2 <? 0) with (from_bytes (take 4 buf) <? 2)
    by (destruct (Z.ltb_spec (from_bytes (take 4 buf)) 2),
                 (Z.ltb_spec (from_bytes (take 4 buf) - 2) 0); lia).
  destruct (_ <? 2); [done|].
  replace (Z.of_nat (length buf - 6)) with (Z.of_nat (length buf) - 6) by lia.
  destruct (_ <? _); [by destruct eof|done].
Qed.

End CodecFacts.

(** C7, as amended: for every cid in [0, 65535] and every payload whose
    length plus 2 fits the 4-byte length field, [encode] yields exactly
    4 + 2 + len(payload) bytes: the big-endian length len(payload) + 2 on
    four bytes, the big-endian cid on two bytes, then the payload; and the
    listener's three reads give back exactly (cid, payload), leaving the
    bytes that follow the frame.  Payloads of 0, 1 and more than 65536
    bytes are instances. *)
Theorem frame_round_trip (i : Z) (data : bytes) :
  0 <= i <= 65535 ->
  Z.of_nat (length data) + 2 < 4294967296 ->
  exists msg,
    encode i data = Ok msg /\
    msg = PyInt.digits 4 (Z.of_nat (length data) + 2) ++ PyInt.digits 2 i ++ data /\
    length msg = (4 + 2 + length data)%nat /\
    PyInt.from_bytes (take 4 msg) = Z.of_nat (length data) + 2 /\
    PyInt.from_bytes (take 2 (drop 4 msg)) = i /\
    drop 6 msg = data /\
    forall rest eof, decode (msg ++ rest) eof = Got (i, data) rest.
Proof.
  intros Hi Hlen. eexists. split; [by apply encode_ok|].
  split; [done|].
  split; [by rewrite !length_app, !PyIntFacts.length_digits|].
  split.
  { rewrite take_app_length' by by rewrite PyIntFacts.length_digits.
    apply PyIntFacts.from_bytes_digits. change (256 ^ Z.of_nat 4) with 4294967296. lia. }
  split.
  { rewrite drop_app_length' by by rewrite PyIntFacts.length_digits.
    rewrite take_app_length' by by rewrite PyIntFacts.length_digits.
    apply PyIntFacts.from_bytes_digits. change (256 ^ Z.of_nat 2) with 65536. lia. }
  split.
  { rewrite app_assoc. apply drop_app_length'.
    by rewrite length_app, !PyIntFacts.length_digits. }
  intros rest eof. apply encode_decode. by apply encode_ok.
Qed.

Lemma frame_round_trip_witness :
  let data := replicate (Z.to_nat 65537) x41 in
  (0 <= 65535 <= 65535) /\
  (Z.of_nat (length data) + 2 < 4294967296) /\
  exists msg,
    encode 65535 data = Ok msg /\
    msg = PyInt.digits 4 (Z.of_nat (length data) + 2) ++ PyInt.digits 2 65535 ++ data /\
    length msg = (4 + 2 + length data)%nat /\
    PyInt.from_bytes (take 4 msg) = Z.of_nat (length data) + 2 /\
    PyInt.from_bytes (take 2 (drop 4 msg)) = 65535 /\
    drop 6 msg = data /\
    forall rest eof, decode (msg ++ rest) eof = Got (65535, data) rest.
Proof.
  intros data.
  assert (H1 : 0 <= 65535 <= 65535) by lia.
  assert (H2 : Z.of_nat (length data) + 2 < 4294967296)
    by (unfold data; rewrite length_replicate; lia).
  exact (conj H1 (conj H2 (frame_round_trip 65535 data H1 H2))).
Defined.

(** The round trip on the three payload lengths that the property names. *)
Example frame_round_trip_lengths :
  decode (default [] (match encode 7 [] with Ok m => Some m | _ => None end)) false
  = Got (7, []) [] /\
  encode 7 [] = Ok [x00; x00; x00; x02; x00; x07] /\
  encode 258 [x41] = Ok [x00; x00; x00; x03; x01; x02; x41] /\
  decode [x00; x00; x00; x03; x01; x02; x41; x99] true = Got (258, [x41]) [x99].
Proof. vm_compute. done. Qed.

(** C7, counterexample: a payload of 4294967294 bytes (length + 2 needs a
    fifth byte) is not encoded at all: [length.to_bytes(4, ..)] raises
    [OverflowError], so there is no frame to decode. *)
Lemma frame_round_trip_overflow :
  let data := replicate (Z.to_nat 4294967294) x00 in
  encode 0 data = Raise OverflowError /\
  ~ exists msg, encode 0 data = Ok msg /\ decode msg false = Got (0, data) [].
Proof.
  intros data.
  assert (Henc : encode 0 data = Raise OverflowError).
  { apply encode_overflow; [lia|].
    unfold data. rewrite length_replicate, Z2Nat.id; lia. }
  split; [exact Henc|].
  intros (msg & Hmsg & _). rewrite Henc in Hmsg. discriminate.
Qed.

(** ** The length field as the listener treats it *)

(** C10, as amended: the listener checks no maximum frame size.  Once the
    six header bytes are there, the length field is a number in
    [0, 4294967295]; a value below 2 makes [readexactly(length-2)] raise
    [ValueError] after the six header bytes have been read: the listener
    catches it and stops, the header gone from the stream, the table and
    the queues as they were; every value from 2 up is taken as it is: the
    listener reads length - 2 bytes when they are there, waits for them
    while the stream is open, and once the stream has ended stops on
    [IncompleteReadError], which empties the stream's buffer. *)
Theorem listener_length_handling (c : Client) :
  listener c = Running ->
  (6 <= length (reader c))%nat ->
  let len := claimed_length (reader c) in
  0 <= len < 4294967296 /\
  (len < 2 ->
   _listener_iter c
   = Some (with_listener (Stopped ValueError)
             (with_reader (drop 6 (reader c)) c))) /\
  (2 <= len -> len - 2 <= Z.of_nat (length (reader c)) - 6 ->
   exists i data rest,
     decode (reader c) (reader_eof c) = Got (i, data) rest /\
     Z.of_nat (length data) = len - 2 /\
     reader c = take 6 (reader c) ++ data ++ rest) /\
  (2 <= len -> Z.of_nat (length (reader c)) - 6 < len - 2 ->
   _listener_iter c =
     if reader_eof c
     then Some (with_listener (Stopped IncompleteReadError) (with_reader [] c))
     else None).
Proof.
  intros Hrun Hhdr len.
  pose proof (decode_by_length (reader c) (reader_eof c) Hhdr) as Hdec.
  cbv zeta in Hdec. fold len in Hdec.
  split; [apply claimed_length_range|].
  split; [|split].
  - intros Hlt. unfold _listener_iter. rewrite Hrun, Hdec.
    by rewrite (proj2 (Z.ltb_lt _ _)) by lia.
  - intros Hge Hfits.
    rewrite (proj2 (Z.ltb_ge len 2)) in Hdec by lia.
    rewrite (proj2 (Z.ltb_ge _ _)) in Hdec by lia.
    eexists _, _, _. split; [exact Hdec|]. split.
    + rewrite length_take, length_drop. lia.
    + by rewrite take_drop, take_drop.
  - intros Hge Hshort. unfold _listener_iter. rewrite Hrun, Hdec.
    rewrite (proj2 (Z.ltb_ge len 2)) by lia.
    rewrite (proj2 (Z.ltb_lt _ _)) by lia.
    by destruct (reader_eof c).
Qed.

Lemma listener_length_handling_witness :
  let c := with_reader [x00; x00; x00; x01; x00; x07; x41] init in
  listener c = Running /\
  (6 <= length (reader c))%nat /\
  claimed_length (reader c) = 1 /\
  _listener_iter c
  = Some (with_listener (Stopped ValueError) (with_reader (drop 6 (reader c)) c)) /\
  drop 6 (reader c) = [x41].
Proof.
  intros c.
  assert (H1 : listener c = Running) by reflexivity.
  assert (H2 : (6 <= length (reader c))%nat) by (simpl; lia).
  assert (H3 : claimed_length (reader c) = 1) by reflexivity.
  refine (conj H1 (conj H2 (conj H3 (conj _ eq_refl)))).
  apply (proj1 (proj2 (listener_length_handling c H1 H2))).
  rewrite H3. lia.
Defined.

(** C10, counterexample: a header claiming 4294967295 bytes, the largest
    value the field can carry and so above any smaller maximum, is not
    rejected: the listener waits in [readexactly(4294967293)]; and a frame
    claiming 70002 bytes is read whole and handed on. *)
Lemma listener_accepts_oversized :
  let hdr := [xff; xff; xff; xff; x00; x07] in
  let big := PyInt.digits 4 70002 ++ PyInt.digits 2 7
             ++ replicate (Z.to_nat 70000) x00 in
  claimed_length hdr = 4294967295 /\
  decode hdr false = Blocks /\
  _listener_iter (with_reader hdr init) = None /\
  claimed_length big = 70002 /\
  decode big false = Got (7, replicate (Z.to_nat 70000) x00) [].
Proof.
  intros hdr big.
  split; [reflexivity|]. split; [reflexivity|]. split; [reflexivity|]. split.
  - unfold big, claimed_length.
    by rewrite take_app_length' by by rewrite PyIntFacts.length_digits.
  - unfold big.
    rewrite <- (app_nil_r (replicate _ _)) at 1.
    apply decode_frame; [lia| |lia].
    rewrite length_replicate, Z2Nat.id; lia.
Qed.

(** No bound below the range of the length field is enforced. *)
Lemma no_maximum_frame_size :
  ~ exists max, max < 4294967295 /\
      forall buf eof, (6 <= length buf)%nat -> max < claimed_length buf ->
                      exists e rest, decode buf eof = Fails e rest.
Proof.
  intros (max & Hmax & Hrej).
  destruct (Hrej [xff; xff; xff; xff; x00; x07] false) as (e & r & He).
  - simpl. lia.
  - change (claimed_length _) with 4294967295. lia.
  - discriminate He.
Qed.

(** ** Sequence counters *)

Section CounterFacts.

Lemma wrap_step (m a j : Z) :
  0 <= a < m ->
  ((if a =? m - 1 then 0 else a + 1) + j) mod m = (a + (j + 1)) mod m.
Proof.
  intros Ha. destruct (Z.eqb_spec a (m - 1)) as [->|Hne].
  - replace (m - 1 + (j + 1)) with (j + 1 * m) by lia.
    by rewrite Z_mod_plus_full.
  - f_equal. lia.
Qed.

Lemma _get_cid_spec c :
  _get_cid c = (with_cid (if cid c =? 65535 then 0 else cid c + 1) c, Ok (cid c)).
Proof. unfold _get_cid, CID_MAX. by destruct (cid c =? 65535). Qed.

Lemma _get_tid_spec c :
  _get_tid c = (with_tid (if tid c =? 4294967295 then 0 else tid c + 1) c, Ok (tid c)).
Proof. unfold _get_tid, TID_MAX. by destruct (tid c =? 4294967295). Qed.

Lemma get_cids_spec n c :
  0 <= cid c <= 65535 ->
  fst (get_cids n c) = (fun k => (cid c + Z.of_nat k) mod 65536) <$> seq 0 n /\
  cid (snd (get_cids n c)) = (cid c + Z.of_nat n) mod 65536 /\
  tid (snd (get_cids n c)) = tid c.
Proof.
  revert c. induction n as [|n IH]; intros c Hc.
  - simpl. rewrite Z.add_0_r, Z.mod_small by lia. done.
  - cbn [get_cids]. rewrite _get_cid_spec. cbn [fst].
    set (c1 := with_cid _ c).
    assert (Hc1 : 0 <= cid c1 <= 65535)
      by (subst c1; simpl; destruct (Z.eqb_spec (cid c) 65535); lia).
    destruct (IH c1 Hc1) as (Hl & Hcid & Htid).
    destruct (get_cids n c1) as [l c2]. cbn [fst snd] in *.
    split; [|split].
    + cbn [seq fmap list_fmap]. f_equal.
      * rewrite Z.add_0_r, Z.mod_small by lia. done.
      * rewrite Hl, <- fmap_S_seq, <- list_fmap_compose.
        apply list_fmap_ext. intros _ k _. simpl.
        rewrite (wrap_step 65536) by lia. f_equal. lia.
    + rewrite Hcid. subst c1. simpl.
      rewrite (wrap_step 65536) by lia. f_equal. lia.
    + rewrite Htid. done.
Qed.

Lemma get_tids_spec n c :
  0 <= tid c <= 4294967295 ->
  fst (get_tids n c) = (fun k => (tid c + Z.of_nat k) mod 4294967296) <$> seq 0 n /\
  tid (snd (get_tids n c)) = (tid c + Z.of_nat n) mod 4294967296 /\
  cid (snd (get_tids n c)) = cid c.
Proof.
  revert c. induction n as [|n IH]; intros c Hc.
  - simpl. rewrite Z.add_0_r, Z.mod_small by lia. done.
  - cbn [get_tids]. rewrite _get_tid_spec. cbn [fst].
    set (c1 := with_tid _ c).
    assert (Hc1 : 0 <= tid c1 <= 4294967295)
      by (subst c1; simpl; destruct (Z.eqb_spec (tid c) 4294967295); lia).
    destruct (IH c1 Hc1) as (Hl & Htid & Hcid).
    destruct (get_tids n c1) as [l c2]. cbn [fst snd] in *.
    split; [|split].
    + cbn [seq fmap list_fmap]. f_equal.
      * rewrite Z.add_0_r, Z.mod_small by lia. done.
      * rewrite Hl, <- fmap_S_seq, <- list_fmap_compose.
        apply list_fmap_ext. intros _ k _. simpl.
        rewrite (wrap_step 4294967296) by lia. f_equal. lia.
    + rewrite Htid. subst c1. simpl.
      rewrite (wrap_step 4294967296) by lia. f_equal. lia.
    + rewrite Hcid. done.
Qed.

Lemma cid_after_full_cycle n :
  Z.of_nat n = 65536 -> snd (_get_cid (snd (get_cids n init))) = Ok 0.
Proof.
  intros Hn. rewrite _get_cid_spec. cbn [snd].
  destruct (get_cids_spec n init) as (_ & Hc & _); [done|].
  rewrite Hc, Hn. done.
Qed.

Lemma tid_after_full_cycle n :
  Z.of_nat n = 4294967296 ->
  snd (_get_tid (snd (get_tids n init))) = Ok 0 /\
  cid (snd (get_tids n init)) = 0.
Proof.
  intros Hn. rewrite _get_tid_spec. cbn [snd].
  destruct (get_tids_spec n init) as (_ & Ht & Hc); [done|].
  rewrite Ht, Hc, Hn. done.
Qed.

End CounterFacts.

(** C8: [_get_cid] and [_get_tid] return the current counter and then
    advance it, to 0 from the maximum (65535 and 4294967295) and by one
    otherwise; neither touches the other counter; on a fresh client the
    k-th allocation (from 0) returns k mod 65536, resp. k mod 4294967296,
    so the allocation after the 65536th returns 0, as the first did. *)
Theorem counters_wrap :
  (forall c, _get_cid c
             = (with_cid (if cid c =? 65535 then 0 else cid c + 1) c, Ok (cid c))) /\
  (forall c, _get_tid c
             = (with_tid (if tid c =? 4294967295 then 0 else tid c + 1) c, Ok (tid c))) /\
  (forall c, tid (fst (_get_cid c)) = tid c /\ cid (fst (_get_tid c)) = cid c) /\
  (forall n, fst (get_cids n init) = (fun k => Z.of_nat k mod 65536) <$> seq 0 n) /\
  (forall n, fst (get_tids n init) = (fun k => Z.of_nat k mod 4294967296) <$> seq 0 n) /\
  snd (_get_cid init) = Ok 0 /\
  snd (_get_cid (snd (get_cids (Z.to_nat 65536) init))) = Ok 0 /\
  snd (_get_tid (snd (get_tids (Z.to_nat 4294967296) init))) = Ok 0 /\
  cid (snd (get_tids (Z.to_nat 4294967296) init)) = 0.
Proof.
  split; [exact _get_cid_spec|]. split; [exact _get_tid_spec|].
  split.
  { intros c. rewrite _get_cid_spec, _get_tid_spec. done. }
  split.
  { intros n. by destruct (get_cids_spec n init) as [-> _]. }
  split.
  { intros n. by destruct (get_tids_spec n init) as [-> _]. }
  split; [reflexivity|].
  split.
  { apply cid_after_full_cycle, Z2Nat.id. lia. }
  apply tid_after_full_cycle, Z2Nat.id. lia.
Qed.

(** ** The listener and the correlation table *)

Section ListenerFacts.
Context `{ApolloCodec}.

Lemma wait_for_with_reader st rest c :
  fst <$> wait_for st (with_reader rest c) = fst <$> wait_for st c.
Proof.
  unfold wait_for. simpl. destruct (s_cancel st); [done|].
  destruct (queues c !! s_q st) as [[m [|d l]]|]; try done;
    by destruct (s_deadline st <=? clock c).
Qed.

(** A listener iteration changes neither the table nor the calls. *)
Lemma _listener_iter_frame c c' :
  _listener_iter c = Some c' ->
  message_dict c' = message_dict c /\ sends c' = sends c /\
  writer c' = writer c /\ tid c' = tid c /\ cid c' = cid c /\
  clock c' = clock c /\ length (queues c') = length (queues c).
Proof.
  unfold _listener_iter. intros Hit.
  destruct (listener c); [| |done].
  - destruct (decode _ _) as [[i data] rest| |]; [| |done].
    + destruct (message_dict c !! i) as [q|]; [|by simplify_eq].
      destruct (queues c !! q) as [qu|]; [|by simplify_eq].
      destruct (put_nowait data qu); simplify_eq; simpl;
        by rewrite ?length_insert.
    + by simplify_eq.
  - by simplify_eq.
Qed.

End ListenerFacts.

(** C9: when the listener decodes a frame whose cid has no entry in
    [message_dict], the iteration only consumes the frame's bytes: the
    table, every queue, every call and what each suspended call would be
    given are as before, and the listener keeps running. *)
Theorem late_response_dropped (c : Client) (i : Z) (data rest : bytes) :
  listener c = Running ->
  decode (reader c) (reader_eof c) = Got (i, data) rest ->
  message_dict c !! i = None ->
  exists c',
    _listener_iter c = Some c' /\
    c' = with_reader rest c /\
    message_dict c' = message_dict c /\
    queues c' = queues c /\
    sends c' = sends c /\
    listener c' = Running /\
    forall st, fst <$> wait_for st c' = fst <$> wait_for st c.
Proof.
  intros Hrun Hdec Hnone. exists (with_reader rest c).
  split.
  { unfold _listener_iter. by rewrite Hrun, Hdec, Hnone. }
  repeat split; try done.
  intros st. apply wait_for_with_reader.
Qed.

Lemma late_response_dropped_witness :
  let c := run [Call ping; Receive [x00; x00; x00; x03; x00; x05; x41]] init in
  listener c = Running /\
  decode (reader c) (reader_eof c) = Got (5, [x41]) [] /\
  message_dict c !! 5 = None /\
  exists c',
    _listener_iter c = Some c' /\
    c' = with_reader [] c /\
    message_dict c' = message_dict c /\
    queues c' = queues c /\
    sends c' = sends c /\
    listener c' = Running /\
    forall st, fst <$> wait_for st c' = fst <$> wait_for st c.
Proof.
  intros c.
  assert (H1 : listener c = Running) by reflexivity.
  assert (H2 : decode (reader c) (reader_eof c) = Got (5, [x41]) [])
    by (vm_compute; reflexivity).
  assert (H3 : message_dict c !! 5 = None) by (vm_compute; reflexivity).
  exact (conj H1 (conj H2 (conj H3 (late_response_dropped c 5 [x41] [] H1 H2 H3)))).
Defined.

(** ** The request executor up to its [await] *)

Section BeginFacts.
Context `{ApolloCodec}.

Lemma allocated_fields c :
  message_dict (allocated c) = message_dict c /\ queues (allocated c) = queues c /\
  sends (allocated c) = sends c /\ writer (allocated c) = writer c /\
  reader (allocated c) = reader c /\ reader_eof (allocated c) = reader_eof c /\
  listener (allocated c) = listener c /\ clock (allocated c) = clock c /\
  disconnected (allocated c) = disconnected c /\
  cid (allocated c) = (if cid c =? 65535 then 0 else cid c + 1) /\
  tid (allocated c) = (if tid c =? 4294967295 then 0 else tid c + 1).
Proof. unfold allocated. rewrite _get_tid_spec. cbn [fst]. by rewrite _get_cid_spec. Qed.

Lemma _write_pdu_send_eq pdu c :
  _write_pdu_send pdu c =
    match encode (cid c) (SerializeToString (set_transaction_id (tid c) pdu)) with
    | Ok msg => (with_writer (msg :: writer c) (allocated c), Ok (cid c))
    | Raise e => (allocated c, Raise e)
    end.
Proof.
  unfold _write_pdu_send, allocated, bind, lift, modify, ret.
  rewrite _get_tid_spec. cbn [fst]. rewrite !_get_cid_spec. cbn [fst cid with_tid].
  by destruct (encode _ _).
Qed.

Lemma _write_pdu_register_eq i c :
  _write_pdu_register i c =
    (with_sends (sends c ++ [mkSend i (length (queues c)) (clock c + 60) false None])
       (with_message_dict (<[i := length (queues c)]> (message_dict c))
          (with_queues (queues c ++ [mkQueue 1 []]) c)),
     Ok (length (sends c))).
Proof. done. Qed.

Lemma _write_pdu_begin_eq pdu c :
  _write_pdu_begin pdu c =
    match encode (cid c) (SerializeToString (set_transaction_id (tid c) pdu)) with
    | Ok msg => (registered (cid c) msg c, Ok (length (sends c)))
    | Raise e => (allocated c, Raise e)
    end.
Proof.
  unfold _write_pdu_begin, bind. rewrite _write_pdu_send_eq.
  destruct (encode _ _) as [msg|e]; [|done].
  rewrite _write_pdu_register_eq. unfold registered.
  destruct (allocated_fields c) as (Hd & Hq & Hs & _ & _ & _ & _ & Hc & _).
  cbn [sends queues message_dict clock with_writer]. by rewrite Hd, Hq, Hs, Hc.
Qed.

Lemma run_app es1 es2 c : run (es1 ++ es2) c = run es2 (run es1 c).
Proof. apply fold_left_app. Qed.

Lemma run_snoc es e c : run (es ++ [e]) c = step (run es c) e.
Proof. apply run_app. Qed.

Lemma step_Call pdu c :
  step c (Call pdu) =
    match encode (cid c) (SerializeToString (set_transaction_id (tid c) pdu)) with
    | Ok msg => registered (cid c) msg c
    | Raise e => allocated c
    end.
Proof. cbn [step]. rewrite _write_pdu_begin_eq. by destruct (encode _ _). Qed.

End BeginFacts.




(** ** Registration when the cid is already in the table *)

(** C2, as amended: registering a cid never fails.  When an entry for the
    cid already exists, [self.message_dict[cid] = q] replaces it by the new
    queue: the earlier queue object and the call suspended on it stay as
    they are, but the table no longer leads to them; the other entries are
    unchanged. *)
Theorem register_replaces_entry (i : Z) (q : nat) (c : Client) :
  message_dict c !! i = Some q ->
  (q < length (queues c))%nat ->
  exists c',
    _write_pdu_register i c = (c', Ok (length (sends c))) /\
    message_dict c' !! i = Some (length (queues c)) /\
    message_dict c' !! i <> Some q /\
    (forall j, j <> i -> message_dict c' !! j = message_dict c !! j) /\
    queues c' !! q = queues c !! q /\
    queues c' !! length (queues c) = Some (mkQueue 1 []) /\
    (forall t st, sends c !! t = Some st -> sends c' !! t = Some st).
Proof.
  intros Hold Hq. eexists. split; [apply _write_pdu_register_eq|].
  cbn [message_dict queues sends with_sends with_message_dict with_queues].
  rewrite lookup_insert_eq.
  split; [done|]. split; [intros [= Heq]; lia|].
  split; [by intros j Hj; rewrite lookup_insert_ne|].
  split; [by rewrite lookup_app_l|].
  split; [by rewrite list_lookup_middle|].
  intros t st Ht. by apply lookup_app_l_Some.
Qed.

(** The client after [n] calls of [_write_pdu(ping)] on a fresh client, none
    of them answered yet. *)
Lemma outstanding_calls (n : nat) :
  Z.of_nat n <= 65536 ->
  let c := run (replicate n (Call ping)) init in
  cid c = Z.of_nat n mod 65536 /\
  tid c = Z.of_nat n /\
  length (queues c) = n /\
  length (sends c) = n /\
  ((0 < n)%nat ->
   message_dict c !! 0 = Some 0%nat /\
   sends c !! 0%nat = Some (mkSend 0 0 60 false None) /\
   queues c !! 0%nat = Some (mkQueue 1 [])).
Proof.
  induction n as [|n IH]; intros Hn c.
  - subst c. simpl. repeat split; try done; lia.
  - destruct IH as (Hcid & Htid & Hq & Hs & Hfirst); [lia|].
    rewrite Z.mod_small in Hcid by lia.
    subst c. rewrite replicate_S_end, run_snoc.
    set (c := run (replicate n (Call ping)) init) in *.
    rewrite step_Call, encode_ok; [|lia|].
    2:{ simpl. rewrite ?length_app, ?PyIntFacts.length_digits. simpl. lia. }
    unfold registered.
    destruct (allocated_fields c) as (_ & _ & _ & _ & _ & _ & _ & Hclk & _ & Hc' & Ht').
    cbn [cid tid queues sends message_dict with_sends with_message_dict
         with_queues with_writer].
    rewrite Hc', Ht', Hcid, Htid, !length_app, Hq, Hs. cbn [length].
    split.
    { destruct (Z.eqb_spec (Z.of_nat n) 65535) as [Heq|Hne].
      - replace (Z.of_nat (S n)) with 65536 by lia. done.
      - rewrite Z.mod_small by lia. lia. }
    split.
    { destruct (Z.eqb_spec (Z.of_nat n) 4294967295); lia. }
    split; [lia|]. split; [lia|].
    intros _. destruct n as [|n].
    + subst c. simpl. rewrite lookup_insert_eq. done.
    + destruct Hfirst as (Hd0 & Hs0 & Hq0); [lia|].
      rewrite lookup_insert_ne by lia.
      by rewrite (lookup_app_l_Some _ _ _ _ Hs0), (lookup_app_l_Some _ _ _ _ Hq0).
Qed.

Lemma register_replaces_entry_witness :
  let c := run [Call ping] init in
  message_dict c !! 0 = Some 0%nat /\
  (0 < length (queues c))%nat /\
  exists c',
    _write_pdu_register 0 c = (c', Ok 1%nat) /\
    message_dict c' !! 0 = Some 1%nat /\
    queues c' !! 0%nat = Some (mkQueue 1 []).
Proof.
  intros c.
  assert (H1 : message_dict c !! 0 = Some 0%nat) by (vm_compute; reflexivity).
  assert (H2 : (0 < length (queues c))%nat) by (simpl; lia).
  destruct (register_replaces_entry 0 0%nat c H1 H2)
    as (c' & Hr & Hd & _ & _ & Hq & _).
  split; [exact H1|]. split; [exact H2|].
  exists c'. split; [exact Hr|]. split; [exact Hd|]. exact Hq.
Defined.

(** C2, counterexample: with 65536 requests outstanding on a fresh client,
    the counter is back at 0, whose first request still waits on queue 0;
    the next [_write_pdu] is not rejected: it returns normally up to its
    [await] and [message_dict[0]] now holds the new queue. *)
Lemma collision_overwrites_live_waiter :
  let c := run (replicate (Z.to_nat 65536) (Call ping)) init in
  cid c = 0 /\
  message_dict c !! 0 = Some 0%nat /\
  sends c !! 0%nat = Some (mkSend 0 0 60 false None) /\
  snd (_write_pdu_begin ping c) = Ok (Z.to_nat 65536) /\
  message_dict (fst (_write_pdu_begin ping c)) !! 0 = Some (Z.to_nat 65536) /\
  sends (fst (_write_pdu_begin ping c)) !! 0%nat = Some (mkSend 0 0 60 false None).
Proof.
  intros c.
  destruct (outstanding_calls (Z.to_nat 65536)) as (Hcid & Htid & Hq & Hs & Hfirst);
    [rewrite Z2Nat.id; lia|].
  fold c in Hcid, Htid, Hq, Hs, Hfirst.
  rewrite Z2Nat.id in Hcid, Htid by lia.
  change (65536 mod 65536) with 0 in Hcid.
  destruct Hfirst as (Hd0 & Hs0 & Hq0); [lia|].
  split; [exact Hcid|]. split; [exact Hd0|]. split; [exact Hs0|].
  rewrite _write_pdu_begin_eq, Hcid.
  rewrite encode_ok; [|lia|].
  2:{ simpl. rewrite ?length_app, ?PyIntFacts.length_digits. simpl. lia. }
  cbn [fst snd]. unfold registered.
  cbn [sends message_dict with_sends with_message_dict].
  rewrite Hs, Hq, lookup_insert_eq.
  split; [done|]. split; [done|].
  by apply lookup_app_l_Some.
Qed.

(** ** Resuming a suspended call *)

Section ResumeFacts.
Context `{ApolloCodec}.

Lemma _write_pdu_resume_cancelled t st c :
  sends c !! t = Some st -> s_outcome st = None -> s_cancel st = true ->
  _write_pdu_resume t c
  = Some (with_sends (<[t := finished (Raised CancelledError) st]> (sends c)) c).
Proof.
  intros Ht Ho Hc. unfold _write_pdu_resume, wait_for. by rewrite Ht, Ho, Hc.
Qed.

Lemma _write_pdu_resume_timeout t st c :
  sends c !! t = Some st -> s_outcome st = None -> s_cancel st = false ->
  (forall qu, queues c !! s_q st = Some qu -> items qu = []) ->
  s_deadline st <= clock c ->
  _write_pdu_resume t c =
    match message_dict c !! s_cid st with
    | Some _ =>
        Some (with_sends (<[t := finished (Returned timeout_rpdu) st]> (sends c))
                (with_message_dict (delete (s_cid st) (message_dict c)) c))
    | None => Some (with_sends (<[t := finished (Raised KeyError) st]> (sends c)) c)
    end.
Proof.
  intros Ht Ho Hc Hq Hd. unfold _write_pdu_resume, wait_for. rewrite Ht, Ho, Hc.
  rewrite (proj2 (Z.leb_le _ _) Hd).
  assert (Hw : match queues c !! s_q st with
               | Some {| maxsize := m; items := d :: rest |} =>
                   Some (Item d, with_queues (<[s_q st:={| maxsize := m; items := rest |}]> (queues c)) c)
               | _ => Some (Throws TimeoutError, c)
               end = Some (Throws TimeoutError, c)).
  { destruct (queues c !! s_q st) as [[m l]|] eqn:Hqu; [|done].
    specialize (Hq _ eq_refl). simpl in Hq. by subst l. }
  rewrite Hw. unfold _write_pdu_finish, bind, ret, del_message.
  by destruct (message_dict c !! s_cid st).
Qed.

Lemma _write_pdu_resume_item t st c m d rest :
  sends c !! t = Some st -> s_outcome st = None -> s_cancel st = false ->
  queues c !! s_q st = Some (mkQueue m (d :: rest)) ->
  _write_pdu_resume t c =
    let c1 := with_queues (<[s_q st := mkQueue m rest]> (queues c)) c in
    match ParseFromString d, message_dict c !! s_cid st with
    | Some r, Some _ =>
        Some (with_sends (<[t := finished (Returned r) st]> (sends c))
                (with_message_dict (delete (s_cid st) (message_dict c)) c1))
    | Some r, None =>
        Some (with_sends (<[t := finished (Raised KeyError) st]> (sends c)) c1)
    | None, _ =>
        Some (with_sends (<[t := finished (Raised DecodeError) st]> (sends c)) c1)
    end.
Proof.
  intros Ht Ho Hc Hq. unfold _write_pdu_resume, wait_for. rewrite Ht, Ho, Hc, Hq.
  unfold _write_pdu_finish, bind, ret, raise, del_message. cbn [message_dict with_queues].
  destruct (ParseFromString d); [|done].
  simpl. by destruct (message_dict c !! s_cid st).
Qed.

Lemma _write_pdu_resume_suspended t st c :
  sends c !! t = Some st -> s_cancel st = false ->
  (forall qu, queues c !! s_q st = Some qu -> items qu = []) ->
  clock c < s_deadline st ->
  _write_pdu_resume t c = None.
Proof.
  intros Ht Hc Hq Hd. unfold _write_pdu_resume, wait_for. rewrite Ht, Hc.
  destruct (s_outcome st); [done|].
  rewrite (proj2 (Z.leb_gt _ _) Hd).
  destruct (queues c !! s_q st) as [[m l]|] eqn:Hqu; [|done].
  specialize (Hq _ eq_refl). simpl in Hq. by subst l.
Qed.

Lemma cleanup_fields c :
  message_dict (cleanup c) = message_dict c /\ queues (cleanup c) = queues c /\
  writer (cleanup c) = writer c /\ tid (cleanup c) = tid c /\
  cid (cleanup c) = cid c /\ clock (cleanup c) = clock c /\
  reader (cleanup c) = reader c /\ reader_eof (cleanup c) = reader_eof c /\
  sends (cleanup c) = cancel <$> sends c /\
  length (sends (cleanup c)) = length (sends c).
Proof. unfold cleanup, _disconnect, _cancel_all_tasks. simpl. by rewrite length_map. Qed.

End ResumeFacts.

(** ** Teardown *)




(** ** Executions with distinct cids: the table invariant *)

Section Invariant.
Context `{ApolloCodec}.

Lemma same_calls_refl c c' : sends c' = sends c -> same_calls c c'.
Proof. intros Hs. split; [by rewrite Hs|]. intros t st' Ht. exists st'. by rewrite <- Hs. Qed.

Lemma same_calls_back c c' t st :
  same_calls c c' -> sends c !! t = Some st ->
  exists st', sends c' !! t = Some st' /\ s_cid st' = s_cid st /\ s_q st' = s_q st.
Proof.
  intros [Hlen Hrel] Ht.
  destruct (lookup_lt_is_Some_2 (sends c') t) as [st' Ht'].
  { rewrite Hlen. by eapply lookup_lt_Some. }
  destruct (Hrel _ _ Ht') as (st0 & Ht0 & Hc & Hq & _).
  exists st'. by simplify_eq.
Qed.

Lemma Inv_update c c' :
  Inv c ->
  same_calls c c' ->
  length (queues c') = length (queues c) ->
  (forall i q, message_dict c' !! i = Some q -> message_dict c !! i = Some q) ->
  (forall t st', sends c' !! t = Some st' -> s_outcome st' = None ->
                 message_dict c' !! s_cid st' = message_dict c !! s_cid st') ->
  Inv c'.
Proof.
  intros [I1 I2 I3 I4] Hsame Hlen Hsub Hlive.
  pose proof Hsame as [Hslen Hrel].
  split.
  - intros t st' Ht Ho. destruct (Hrel _ _ Ht) as (st & Hst & Hc & Hq & Hlv).
    rewrite (Hlive _ _ Ht Ho), Hc, Hq. eauto.
  - intros t st' Ht. destruct (Hrel _ _ Ht) as (st & Hst & Hc & Hq & Hlv).
    rewrite Hlen, Hq. eauto.
  - intros t t' st1 st2 Ht Ht' Heq.
    destruct (Hrel _ _ Ht) as (s1 & Hs1 & _ & Hq1 & _).
    destruct (Hrel _ _ Ht') as (s2 & Hs2 & _ & Hq2 & _).
    eapply I3; eauto. congruence.
  - intros i q Hi. destruct (I4 _ _ (Hsub _ _ Hi)) as (t & st & Ht & Hc & Hq).
    destruct (same_calls_back _ _ _ _ Hsame Ht) as (st' & Ht' & Hc' & Hq').
    exists t, st'. split; [done|]. split; congruence.
Qed.

Lemma Inv_init : Inv init.
Proof. split; intros *; simpl; try done. Qed.

End Invariant.

Section InvariantSteps.
Context `{ApolloCodec}.

Lemma live_cid_false c i t st :
  live_cid c i = false -> sends c !! t = Some st -> s_outcome st = None ->
  s_cid st <> i.
Proof.
  intros Hlive Ht Ho Heq.
  assert (Hex : existsb (fun st => live st && (s_cid st =? i)) (sends c) = true).
  { apply existsb_exists. exists st. split.
    - apply list_elem_of_In, list_elem_of_lookup. eauto.
    - unfold live. rewrite Ho. simpl. by apply Z.eqb_eq. }
  unfold live_cid in Hlive. congruence.
Qed.

(** What resuming a call changes. *)
Lemma _write_pdu_resume_frame t c c' :
  _write_pdu_resume t c = Some c' ->
  exists st o,
    sends c !! t = Some st /\ s_outcome st = None /\
    sends c' = <[t := finished o st]> (sends c) /\
    length (queues c') = length (queues c) /\
    (forall q, q <> s_q st -> queues c' !! q = queues c !! q) /\
    (message_dict c' = message_dict c \/
     message_dict c' = delete (s_cid st) (message_dict c)) /\
    listener c' = listener c /\ reader c' = reader c /\
    reader_eof c' = reader_eof c /\ clock c' = clock c /\ cid c' = cid c.
Proof.
  unfold _write_pdu_resume. intros Hres.
  destruct (sends c !! t) as [st|] eqn:Ht; [|done].
  destruct (s_outcome st) eqn:Ho; [done|].
  destruct (wait_for st c) as [[aw c1]|] eqn:Hw; [|done].
  assert (Hc1 : message_dict c1 = message_dict c /\ sends c1 = sends c /\
                length (queues c1) = length (queues c) /\
                (forall q, q <> s_q st -> queues c1 !! q = queues c !! q) /\
                listener c1 = listener c /\ reader c1 = reader c /\
                reader_eof c1 = reader_eof c /\ clock c1 = clock c /\
                cid c1 = cid c).
  { unfold wait_for in Hw. destruct (s_cancel st); [by simplify_eq|].
    destruct (queues c !! s_q st) as [[m [|d l]]|];
      try (destruct (s_deadline st <=? clock c); by simplify_eq).
    simplify_eq. simpl. rewrite length_insert.
    repeat split; try done. intros q Hq. by rewrite list_lookup_insert_ne. }
  destruct Hc1 as (Hd1 & Hs1 & Hl1 & Hq1 & Hli & Hr & He & Hclk & Hcid).
  unfold _write_pdu_finish, bind, ret, raise, del_message in Hres.
  exists st.
  destruct aw as [rdata|e].
  - destruct (ParseFromString rdata) as [r|].
    + destruct (message_dict c1 !! s_cid st); simplify_eq; eexists;
        cbn [sends queues message_dict listener reader reader_eof clock cid
             with_sends with_message_dict];
        rewrite ?Hs1, ?Hd1; repeat split; eauto.
    + simplify_eq. eexists. cbn [sends queues message_dict cid with_sends].
      rewrite Hs1. repeat split; eauto.
  - assert (Hcases :
      (e = TimeoutError /\
       Some c' = match message_dict c1 !! s_cid st with
                 | Some _ => Some (with_sends (<[t := finished (Returned timeout_rpdu) st]> (sends c1))
                                     (with_message_dict (delete (s_cid st) (message_dict c1)) c1))
                 | None => Some (with_sends (<[t := finished (Raised KeyError) st]> (sends c1)) c1)
                 end) \/
      Some c' = Some (with_sends (<[t := finished (Raised e) st]> (sends c1)) c1)).
    { destruct e; try (right; by simplify_eq).
      left. split; [done|]. destruct (message_dict c1 !! s_cid st); by simplify_eq. }
    destruct Hcases as [[-> Hc']|Hc'].
    + destruct (message_dict c1 !! s_cid st); simplify_eq; eexists;
        cbn [sends queues message_dict listener reader reader_eof clock cid
             with_sends with_message_dict];
        rewrite ?Hs1, ?Hd1; repeat split; eauto.
    + simplify_eq. eexists. cbn [sends queues message_dict cid with_sends].
      rewrite Hs1. repeat split; eauto.
Qed.

Lemma same_calls_insert c c' t st o :
  sends c !! t = Some st -> sends c' = <[t := finished o st]> (sends c) ->
  same_calls c c'.
Proof.
  intros Ht Hs. split; [by rewrite Hs, length_insert|].
  intros t' st' Ht'. rewrite Hs in Ht'.
  destruct (decide (t = t')) as [<-|Hne].
  - rewrite list_lookup_insert_eq in Ht' by by eapply lookup_lt_Some.
    simplify_eq. exists st. by repeat split.
  - rewrite list_lookup_insert_ne in Ht' by done. exists st'. by repeat split.
Qed.

Lemma same_calls_cleanup c : same_calls c (cleanup c).
Proof.
  destruct (cleanup_fields c) as (_ & _ & _ & _ & _ & _ & _ & _ & Hs & Hlen).
  split; [done|]. intros t st' Ht. rewrite Hs, list_lookup_fmap in Ht.
  destruct (sends c !! t) as [st|]; [|done]. simpl in Ht. simplify_eq.
  exists st. unfold cancel. destruct (s_outcome st) eqn:Ho; repeat split; simpl; congruence.
Qed.

Lemma Inv_register c msg :
  Inv c -> live_cid c (cid c) = false -> Inv (registered (cid c) msg c).
Proof.
  intros [I1 I2 I3 I4] Hfree. unfold registered.
  split; cbn [sends queues message_dict with_sends with_message_dict with_queues].
  - intros t st Ht Ho. apply lookup_app_Some in Ht as [Ht|[_ Ht]].
    + rewrite lookup_insert_ne; [eauto|].
      intros Heq. by eapply live_cid_false.
    + destruct (t - length (sends c))%nat; [|done]. simpl in Ht. simplify_eq. cbn [s_cid s_q].
      by rewrite lookup_insert_eq.
  - intros t st Ht. rewrite length_app. simpl.
    apply lookup_app_Some in Ht as [Ht|[_ Ht]].
    + specialize (I2 _ _ Ht). lia.
    + destruct (t - length (sends c))%nat; [|done]. simpl in Ht. simplify_eq. simpl. lia.
  - intros t t' st st' Ht Ht' Heq.
    apply lookup_app_Some in Ht as [Ht|[Hge Ht]];
      apply lookup_app_Some in Ht' as [Ht'|[Hge' Ht']].
    + eauto.
    + destruct (t' - length (sends c))%nat; [|done]. simpl in Ht'. simplify_eq. simpl in Heq.
      specialize (I2 _ _ Ht). lia.
    + destruct (t - length (sends c))%nat; [|done]. simpl in Ht. simplify_eq. simpl in Heq.
      specialize (I2 _ _ Ht'). lia.
    + destruct (t - length (sends c))%nat eqn:E1; [|done].
      destruct (t' - length (sends c))%nat eqn:E2; [|done]. lia.
  - intros i q Hi. destruct (decide (cid c = i)) as [<-|Hne].
    + rewrite lookup_insert_eq in Hi. simplify_eq.
      exists (length (sends c)), (mkSend (cid c) (length (queues c)) (clock c + 60) false None).
      by rewrite list_lookup_middle.
    + rewrite lookup_insert_ne in Hi by done.
      destruct (I4 _ _ Hi) as (t & st & Ht & Hc & Hq).
      exists t, st. split; [by apply lookup_app_l_Some|done].
Qed.

Lemma Inv_step c e : Inv c -> allowed c e -> Inv (step c e).
Proof.
  intros HI Hok. destruct e as [pdu|bs| | |t|dt|].
  - rewrite step_Call. destruct (encode _ _) as [msg|err].
    + by apply Inv_register.
    + destruct (allocated_fields c) as (Hd & Hq & Hs & _).
      apply (Inv_update c); [done|by apply same_calls_refl|by rewrite Hq|..];
        intros *; by rewrite Hd.
  - apply (Inv_update c); [done|by apply same_calls_refl|done|..]; by intros.
  - apply (Inv_update c); [done|by apply same_calls_refl|done|..]; by intros.
  - cbn [step]. destruct (_listener_iter c) as [c'|] eqn:Hit; [|done].
    change (Inv c').
    destruct (_listener_iter_frame _ _ Hit) as (Hd & Hs & _ & _ & _ & _ & Hq).
    apply (Inv_update c); [done|by apply same_calls_refl|done|..];
      intros *; by rewrite Hd.
  - cbn [step]. destruct (_write_pdu_resume t c) as [c'|] eqn:Hres; [|done].
    change (Inv c').
    destruct (_write_pdu_resume_frame _ _ _ Hres)
      as (st & o & Ht & Ho & Hs & Hlen & _ & Hd & _).
    apply (Inv_update c); [done|by eapply same_calls_insert|done|..].
    + intros i q. destruct Hd as [->| ->]; [done|].
      intros Hdel. apply lookup_delete_Some in Hdel. tauto.
    + intros t' st' Ht' Ho'. destruct Hd as [->| ->]; [done|].
      rewrite Hs in Ht'. destruct (decide (t = t')) as [<-|Hne].
      * rewrite list_lookup_insert_eq in Ht' by by eapply lookup_lt_Some.
        by simplify_eq.
      * rewrite list_lookup_insert_ne in Ht' by done.
        apply lookup_delete_ne. intros Heq. apply Hne.
        destruct HI as [I1 _ I3 _]. eapply I3; eauto.
        pose proof (I1 _ _ Ht Ho) as E1. pose proof (I1 _ _ Ht' Ho') as E2.
        rewrite Heq in E1. congruence.
  - apply (Inv_update c); [done|by apply same_calls_refl|done|..]; by intros.
  - cbn [step]. destruct (cleanup_fields c) as (Hd & Hq & _).
    apply (Inv_update c); [done|apply same_calls_cleanup|by rewrite Hq|..];
      intros *; by rewrite Hd.
Qed.

Lemma distinct_cids_app es1 es2 c :
  distinct_cids (es1 ++ es2) c
  = distinct_cids es1 c && distinct_cids es2 (run es1 c).
Proof.
  revert c. induction es1 as [|e es1 IH]; intros c; [done|].
  cbn [app distinct_cids]. rewrite IH. by rewrite andb_assoc.
Qed.

Lemma distinct_cids_snoc es e c :
  distinct_cids (es ++ [e]) c = true ->
  distinct_cids es c = true /\ allowed (run es c) e.
Proof.
  rewrite distinct_cids_app. intros [H1 H2]%andb_true_iff. split; [done|].
  cbn [distinct_cids] in H2. rewrite andb_true_r in H2.
  destruct e; try done. by apply negb_true_iff.
Qed.

Lemma Inv_run es : distinct_cids es init = true -> Inv (run es init).
Proof.
  induction es as [|e es IH] using rev_ind; intros Hd; [apply Inv_init|].
  apply distinct_cids_snoc in Hd as [Hd Hok].
  rewrite run_snoc. apply Inv_step; auto.
Qed.

Lemma step_same_calls c e :
  (forall pdu, e <> Call pdu) -> same_calls c (step c e) /\ cid (step c e) = cid c.
Proof.
  intros Hne. destruct e as [pdu|bs| | |t|dt|]; try (split; [by apply same_calls_refl|done]).
  - by destruct (Hne pdu).
  - cbn [step]. destruct (_listener_iter c) as [c'|] eqn:Hit;
      [|split; [by apply same_calls_refl|done]].
    destruct (_listener_iter_frame _ _ Hit) as (_ & Hs & _ & _ & Hc & _).
    split; [by apply same_calls_refl|done].
  - cbn [step]. destruct (_write_pdu_resume t c) as [c'|] eqn:Hres;
      [|split; [by apply same_calls_refl|done]].
    destruct (_write_pdu_resume_frame _ _ _ Hres)
      as (st & o & Ht & _ & Hs & _ & _ & _ & _ & _ & _ & _ & Hc).
    split; [by eapply same_calls_insert|done].
  - split; [apply same_calls_cleanup|]. by destruct (cleanup_fields c) as (_ & _ & _ & _ & Hc & _).
Qed.

Lemma calls_snoc es e :
  calls (es ++ [e]) = (calls es + match e with Call _ => 1 | _ => 0 end)%nat.
Proof.
  induction es as [|e' es IH]; [by destruct e|].
  destruct e'; cbn [app calls]; rewrite IH; lia.
Qed.

Lemma live_cid_fresh c i :
  (forall t st, sends c !! t = Some st -> s_cid st <> i) -> live_cid c i = false.
Proof.
  intros Hall. unfold live_cid.
  destruct (existsb _ _) eqn:Hex; [|done].
  apply existsb_exists in Hex as (st & Hin & Hst).
  apply list_elem_of_In, list_elem_of_lookup in Hin as [t Ht].
  apply andb_true_iff in Hst as [_ Heq%Z.eqb_eq].
  by destruct (Hall _ _ Ht).
Qed.

Lemma live_cid_fresh_live c i :
  (forall t st, sends c !! t = Some st -> s_outcome st = None -> s_cid st <> i) ->
  live_cid c i = false.
Proof.
  intros Hall. unfold live_cid.
  destruct (existsb _ _) eqn:Hex; [|done].
  apply existsb_exists in Hex as (st & Hin & Hst).
  apply list_elem_of_In, list_elem_of_lookup in Hin as [t Ht].
  apply andb_true_iff in Hst as [Hlive Heq%Z.eqb_eq].
  unfold live in Hlive. destruct (s_outcome st) eqn:Ho; [done|].
  by destruct (Hall _ _ Ht Ho).
Qed.

(** The first 65536 calls on a fresh client hold distinct cids, whatever
    else happens in between: call number k (from 0) is given cid k. *)
Lemma first_calls_distinct es :
  Z.of_nat (calls es) <= 65536 ->
  distinct_cids es init = true /\
  cid (run es init) = Z.of_nat (calls es) mod 65536 /\
  forall t st, sends (run es init) !! t = Some st ->
               0 <= s_cid st < Z.of_nat (calls es).
Proof.
  induction es as [|e es IH] using rev_ind; intros Hn; [by repeat split|].
  rewrite calls_snoc in Hn |- *. rewrite run_snoc, distinct_cids_app.
  destruct IH as (Hd & Hc & Hs); [lia|]. rewrite Hd. cbn [andb distinct_cids].
  set (c := run es init) in *.
  assert (Hcase : (exists pdu, e = Call pdu) \/ (forall pdu, e <> Call pdu))
    by (destruct e; eauto).
  destruct Hcase as [[pdu ->]|Hne].
  - rewrite Z.mod_small in Hc by lia.
    assert (Hfree : live_cid c (cid c) = false).
    { apply live_cid_fresh. intros t st Ht. specialize (Hs _ _ Ht). lia. }
    rewrite Hfree, step_Call. cbn [negb andb].
    destruct (allocated_fields c) as (_ & _ & Hsa & _ & _ & _ & _ & _ & _ & Hca & _).
    assert (Hnext : (if cid c =? 65535 then 0 else cid c + 1)
                    = Z.of_nat (calls es + 1) mod 65536).
    { destruct (Z.eqb_spec (cid c) 65535) as [Heq|Hne].
      - replace (Z.of_nat (calls es + 1)) with 65536 by lia. done.
      - rewrite Z.mod_small by lia. lia. }
    destruct (encode _ _) as [msg|err].
    + unfold registered. cbn [cid sends with_sends with_message_dict with_queues with_writer].
      rewrite Hca. split; [done|]. split; [done|].
      intros t st Ht. apply lookup_app_Some in Ht as [Ht|[_ Ht]].
      * specialize (Hs _ _ Ht). lia.
      * destruct (t - length (sends c))%nat; [|done]. simpl in Ht. simplify_eq.
        cbn [s_cid]. lia.
    + rewrite Hca, Hsa. split; [done|]. split; [done|].
      intros t st Ht. specialize (Hs _ _ Ht). lia.
  - destruct (step_same_calls c e Hne) as [[_ Hrel] Hcid].
    replace (match e with Call _ => negb (live_cid c (cid c)) | _ => true end)
      with true by (destruct e; try done; by destruct (Hne pdu)).
    replace (match e with Call _ => 1%nat | _ => 0%nat end)
      with 0%nat by (destruct e; try done; by destruct (Hne pdu)).
    rewrite Nat.add_0_r, Hcid. split; [done|]. split; [done|].
    intros t st' Ht. destruct (Hrel _ _ Ht) as (st & Hst & -> & _). eauto.
Qed.

End InvariantSteps.

(** ** Timeout *)

Section CollisionFacts.





End CollisionFacts.




(** ** What a call ends with *)

(** C5, as amended: a suspended call ends by its own task, queue and
    deadline, and not by the listener.  If its task was cancelled,
    [CancelledError] is raised.  Else, with a response in its queue before
    its deadline, the parsed response is returned, or [DecodeError] raised
    when it does not parse; with its queue empty at or after its deadline,
    the timeout rpdu is returned; with a response in its queue at or after
    its deadline it ends in one of these two ways; with its queue empty
    before its deadline it stays suspended.  A result is returned only
    after [del self.message_dict[cid]]: where the entry of the cid is gone,
    [KeyError] is raised in place of the result, which does not happen in
    an execution with distinct cids.  There is no result for a lost
    connection: the state of the listener plays no part, and a call whose
    listener has stopped returns the timeout rpdu at its deadline. *)
Theorem send_outcomes `{ApolloCodec} (es : list Event) (t : nat) (st : SendTask) :
  let c := run es init in
  sends c !! t = Some st ->
  s_outcome st = None ->
  let ends (o : Outcome) : Outcome :=
    match o, message_dict c !! s_cid st with
    | Returned _, None => Raised KeyError
    | _, _ => o
    end in
  let verdict : list Outcome :=
    if s_cancel st then [Raised CancelledError]
    else match queues c !! s_q st with
         | Some (mkQueue _ (d :: _)) =>
             if clock c <? s_deadline st then [ends (parsed d)]
             else [ends (parsed d); ends (Returned timeout_rpdu)]
         | _ => if s_deadline st <=? clock c then [ends (Returned timeout_rpdu)]
                else []
         end in
  (distinct_cids es init = true -> forall o, ends o = o) /\
  match verdict with
  | [] => _write_pdu_resume t c = None
  | _ :: _ =>
      exists c' o, _write_pdu_resume t c = Some c' /\
                   outcome t c' = Some o /\ o ∈ verdict /\
                   listener c' = listener c
  end.
Proof.
  intros c Ht Ho ends verdict.
  split.
  { intros Hdist o. pose proof (Inv_run _ Hdist) as HI. fold c in HI.
    unfold ends. rewrite (inv_live_entry c HI t st Ht Ho). by destruct o. }
  assert (Hlt : (t < length (sends c))%nat) by by eapply lookup_lt_Some.
  assert (Htime :
            (forall qu, queues c !! s_q st = Some qu -> items qu = []) ->
            s_cancel st = false -> s_deadline st <= clock c ->
            exists c', _write_pdu_resume t c = Some c' /\
                       outcome t c' = Some (ends (Returned timeout_rpdu)) /\
                       listener c' = listener c).
  { intros Hq Hc Hd. rewrite (_write_pdu_resume_timeout t st c) by done.
    unfold ends.
    destruct (message_dict c !! s_cid st); eexists; (split; [done|]);
      unfold outcome; cbn [sends with_sends listener with_message_dict];
      by rewrite list_lookup_insert_eq. }
  subst verdict. destruct (s_cancel st) eqn:Hc.
  { eexists _, _. split; [by apply _write_pdu_resume_cancelled|].
    unfold outcome. cbn [sends with_sends listener].
    rewrite list_lookup_insert_eq by done.
    split; [done|]. split; [constructor|done]. }
  destruct (queues c !! s_q st) as [[m [|d rest]]|] eqn:Hq.
  - destruct (Z.leb_spec (s_deadline st) (clock c)) as [Hd|Hd].
    + destruct Htime as (c' & Hr & Hout & Hl); try done.
      { intros qu Hqu. by simplify_eq. }
      exists c'; eexists; split; [done|]. split; [done|].
      split; [constructor|done].
    + apply (_write_pdu_resume_suspended t st); try done.
      intros qu Hqu. by simplify_eq.
  - assert (Hitem : exists c', _write_pdu_resume t c = Some c' /\
                               outcome t c' = Some (ends (parsed d)) /\
                               listener c' = listener c).
    { rewrite (_write_pdu_resume_item t st c m d rest) by done. cbv zeta.
      unfold ends, parsed.
      destruct (ParseFromString d), (message_dict c !! s_cid st);
        eexists; (split; [done|]);
        unfold outcome; cbn [sends with_sends listener with_message_dict with_queues];
        by rewrite list_lookup_insert_eq. }
    destruct Hitem as (c' & Hr & Hout & Hl).
    destruct (clock c <? s_deadline st);
      exists c'; eexists; (split; [done|]); (split; [done|]);
      (split; [constructor|done]).
  - destruct (Z.leb_spec (s_deadline st) (clock c)) as [Hd|Hd].
    + destruct Htime as (c' & Hr & Hout & Hl); try done.
      exists c'; eexists; split; [done|]. split; [done|].
      split; [constructor|done].
    + apply (_write_pdu_resume_suspended t st); try done.
      intros qu Hqu. by simplify_eq.
Qed.

Lemma send_outcomes_witness :
  let c := run [Call ping; Eof; Listen; Tick 60] init in
  sends c !! 0%nat = Some (mkSend 0 0 60 false None) /\
  listener c = Stopped IncompleteReadError /\
  exists c' o, _write_pdu_resume 0 c = Some c' /\
               outcome 0 c' = Some o /\
               o ∈ [Returned timeout_rpdu] /\
               listener c' = listener c.
Proof.
  intros c.
  assert (H2 : sends c !! 0%nat = Some (mkSend 0 0 60 false None)) by reflexivity.
  split; [exact H2|]. split; [reflexivity|].
  exact (proj2 (send_outcomes [Call ping; Eof; Listen; Tick 60] 0%nat _ H2 eq_refl)).
Defined.

(** C5, counterexample: the peer closes the stream while a call waits.
    The listener stops on [IncompleteReadError]; the call stays suspended
    and, 60 seconds after it was made, returns the timeout rpdu, not a
    lost-connection result.  A call cancelled by [cleanup] ends with
    [CancelledError] raised, and one whose response does not parse with
    [DecodeError] raised. *)
Lemma connection_failure_yields_timeout :
  let c := run [Call ping; Eof; Listen] init in
  listener c = Stopped IncompleteReadError /\
  outcome 0 c = None /\
  _write_pdu_resume 0 c = None /\
  outcome 0 (run [Tick 60; Resume 0%nat] c) = Some (Returned timeout_rpdu) /\
  error_transport timeout_rpdu = "timeout"%string /\
  outcome 0 (run [Call ping; Cleanup; Resume 0%nat] init)
  = Some (Raised CancelledError) /\
  outcome 0 (run [Call ping; Receive [x00; x00; x00; x03; x00; x00; x41];
                  Listen; Resume 0%nat] init)
  = Some (Raised DecodeError).
Proof. vm_compute. done. Qed.

(** ** Correlation: which response a call is given *)

Section Correlation.
Context `{ApolloCodec}.

Lemma arrived_snoc es e t i d : arrived es t i d -> arrived (es ++ [e]) t i d.
Proof.
  intros (es1 & es2 & rest & st & -> & Hrest).
  exists es1, (es2 ++ [e]), rest, st. split; [|done].
  by rewrite <- app_assoc.
Qed.

(** What a listener iteration does to the queues. *)
Lemma _listener_iter_queues c c' :
  _listener_iter c = Some c' ->
  queues c' = queues c \/
  exists i data rest q qu,
    listener c = Running /\
    decode (reader c) (reader_eof c) = Got (i, data) rest /\
    message_dict c !! i = Some q /\
    queues c !! q = Some qu /\
    queues c' = <[q := mkQueue (maxsize qu) (items qu ++ [data])]> (queues c).
Proof.
  unfold _listener_iter. intros Hit.
  destruct (listener c) eqn:Hl; [| |done].
  - destruct (decode _ _) as [[i data] rest| |] eqn:Hdec; [| |done].
    + destruct (message_dict c !! i) as [q|] eqn:Hd; [|left; by simplify_eq].
      destruct (queues c !! q) as [qu|] eqn:Hq; [|left; by simplify_eq].
      unfold put_nowait in Hit.
      destruct (_ && _); [left; by simplify_eq|].
      right. exists i, data, rest, q, qu. by simplify_eq.
    + left. by simplify_eq.
  - left. by simplify_eq.
Qed.

(** Every response waiting in a live call's queue arrived in a frame
    bearing that call's cid. *)
Lemma queue_provenance es :
  distinct_cids es init = true ->
  forall t st qu d,
    sends (run es init) !! t = Some st -> s_outcome st = None ->
    queues (run es init) !! s_q st = Some qu -> d ∈ items qu ->
    arrived es t (s_cid st) d.
Proof.
  induction es as [|e es IH] using rev_ind; intros Hdist t st' qu' d.
  { by intros Ht. }
  apply distinct_cids_snoc in Hdist as [Hdist Hok].
  specialize (IH Hdist). pose proof (Inv_run _ Hdist) as HI.
  rewrite run_snoc. set (c := run es init) in *.
  assert (Hold : forall st qu,
            sends c !! t = Some st -> s_outcome st = None ->
            s_cid st = s_cid st' -> s_q st = s_q st' ->
            queues c !! s_q st = Some qu -> d ∈ items qu ->
            arrived (es ++ [e]) t (s_cid st') d).
  { intros st qu Ht Ho Hc Hq Hqu Hd. rewrite <- Hc.
    apply arrived_snoc. by eapply IH. }
  destruct e as [pdu|bs| | |t0|dt|].
  - rewrite step_Call. destruct (encode _ _) as [msg|err].
    + unfold registered. cbn [sends queues with_sends with_message_dict with_queues].
      intros Ht Ho Hq Hd.
      apply lookup_app_Some in Ht as [Ht|[_ Ht]].
      * pose proof (inv_queue_alloc c HI _ _ Ht) as Hlt.
        rewrite lookup_app_l in Hq by done. by eapply Hold.
      * destruct (t - length (sends c))%nat; [|done]. simpl in Ht. simplify_eq.
        cbn [s_q] in Hq. rewrite list_lookup_middle in Hq by done.
        simplify_eq. simpl in Hd. by apply not_elem_of_nil in Hd.
    + destruct (allocated_fields c) as (_ & -> & -> & _). intros. by eapply Hold.
  - cbn [step sends queues with_reader]. intros. by eapply Hold.
  - cbn [step sends queues with_reader_eof]. intros. by eapply Hold.
  - cbn [step]. destruct (_listener_iter c) as [c'|] eqn:Hit;
      [|intros; by eapply Hold].
    change (default c (Some c')) with c'.
    destruct (_listener_iter_frame _ _ Hit) as (_ & Hs & _).
    rewrite Hs. intros Ht Ho Hq Hd.
    destruct (_listener_iter_queues _ _ Hit)
      as [Hsame|(i & data & rest & q & qu & Hrun & Hdec & Hdict & Hqu & Hqs)].
    { rewrite Hsame in Hq. by eapply Hold. }
    rewrite Hqs in Hq. destruct (decide (q = s_q st')) as [->|Hne].
    + rewrite list_lookup_insert_eq in Hq by by eapply lookup_lt_Some.
      simplify_eq. cbn [items] in Hd.
      apply elem_of_app in Hd as [Hd|Hd]; [by eapply Hold|].
      apply list_elem_of_singleton in Hd as ->.
      destruct (inv_entry_owner c HI _ _ Hdict) as (t1 & st1 & Ht1 & Hc1 & Hq1).
      assert (t = t1) as <- by (eapply (inv_queue_inj c HI); eauto).
      simplify_eq.
      exists es, [], rest, st'. by repeat split.
    + rewrite list_lookup_insert_ne in Hq by done. by eapply Hold.
  - cbn [step]. destruct (_write_pdu_resume t0 c) as [c'|] eqn:Hres;
      [|intros; by eapply Hold].
    change (default c (Some c')) with c'.
    destruct (_write_pdu_resume_frame _ _ _ Hres)
      as (st0 & o & Ht0 & Ho0 & Hs & _ & Hqs & _).
    rewrite Hs. intros Ht Ho Hq Hd.
    destruct (decide (t0 = t)) as [->|Hne].
    { rewrite list_lookup_insert_eq in Ht by by eapply lookup_lt_Some.
      by simplify_eq. }
    rewrite list_lookup_insert_ne in Ht by done.
    rewrite Hqs in Hq; [by eapply Hold|].
    intros Heq. apply Hne. by eapply (inv_queue_inj c HI).
  - cbn [step sends queues with_clock]. intros. by eapply Hold.
  - cbn [step]. destruct (cleanup_fields c) as (_ & -> & _ & _ & _ & _ & _ & _ & -> & _).
    rewrite list_lookup_fmap. intros Ht Ho Hq Hd.
    destruct (sends c !! t) as [st|] eqn:Hst; [|done]. simpl in Ht. simplify_eq.
    unfold cancel in *. destruct (s_outcome st) eqn:Host; [by rewrite Host in Ho|].
    by eapply Hold.
Qed.

End Correlation.

(** C1: in every execution from a fresh client in which the calls hold
    distinct cids while they are live (as they do whenever at most 65536
    calls are made, [first_calls_distinct]), whatever the order of calls,
    frames and resumptions, a call that is resumed with a response is given a
    payload that the listener decoded from a frame bearing that call's own
    cid while the call was waiting, and it ends with exactly that payload
    parsed (or with [DecodeError] if it does not parse); its cid then
    leaves the table. *)
Theorem response_matches_cid `{ApolloCodec}
    (es : list Event) (t : nat) (st : SendTask) (m : Z) (d : bytes) (rest : list bytes) :
  let c := run es init in
  distinct_cids es init = true ->
  sends c !! t = Some st ->
  s_outcome st = None ->
  s_cancel st = false ->
  queues c !! s_q st = Some (mkQueue m (d :: rest)) ->
  arrived es t (s_cid st) d /\
  message_dict c !! s_cid st = Some (s_q st) /\
  exists c',
    _write_pdu_resume t c = Some c' /\
    outcome t c' = Some (parsed d) /\
    (forall r, ParseFromString d = Some r ->
               outcome t c' = Some (Returned r) /\
               message_dict c' !! s_cid st = None).
Proof.
  intros c Hdist Ht Ho Hc Hq.
  pose proof (Inv_run _ Hdist) as HI. fold c in HI.
  pose proof (inv_live_entry c HI t st Ht Ho) as Hentry.
  split.
  { eapply (queue_provenance es Hdist t st); eauto. simpl. by left. }
  split; [done|].
  rewrite (_write_pdu_resume_item t st c m d rest) by done. cbv zeta.
  rewrite Hentry. unfold parsed, outcome.
  assert (Hlt : (t < length (sends c))%nat) by by eapply lookup_lt_Some.
  destruct (ParseFromString d) as [r|]; eexists; (split; [done|]);
    cbn [sends with_sends message_dict with_message_dict with_queues];
    rewrite list_lookup_insert_eq by done; (split; [done|]); [|done].
  intros r' [= <-]. split; [done|]. apply lookup_delete_eq.
Qed.

Lemma response_matches_cid_witness :
  let c := run reversed_run init in
  distinct_cids reversed_run init = true /\
  sends c !! 0%nat = Some (mkSend 0 0 60 false None) /\
  queues c !! 0%nat = Some (mkQueue 1 [[x00; x00; x00; x00; x41]]) /\
  arrived reversed_run 0 0 [x00; x00; x00; x00; x41] /\
  exists c',
    _write_pdu_resume 0 c = Some c' /\
    outcome 0 c' = Some (Returned (mkPdu 0 1 0 [x41] EmptyString)) /\
    message_dict c' !! 0 = None.
Proof.
  intros c.
  assert (H1 : distinct_cids reversed_run init = true) by (vm_compute; reflexivity).
  assert (H2 : sends c !! 0%nat = Some (mkSend 0 0 60 false None)) by reflexivity.
  assert (H3 : queues c !! s_q (mkSend 0 0 60 false None)
               = Some (mkQueue 1 [[x00; x00; x00; x00; x41]]))
    by reflexivity.
  destruct (response_matches_cid reversed_run 0%nat _ 1 _ [] H1 H2 eq_refl eq_refl H3)
    as (Harr & _ & c' & Hr & _ & Hparsed).
  destruct (Hparsed (mkPdu 0 1 0 [x41] EmptyString) eq_refl) as [Ho Hd].
  split; [exact H1|]. split; [exact H2|]. split; [exact H3|]. split; [exact Harr|].
  exists c'. split; [exact Hr|]. split; [exact Ho|exact Hd].
Defined.

(** The same execution, run to the end: each call returns the response
    that bore its cid, in whichever order the calls are resumed. *)
Example reversed_order_responses :
  let c := run (reversed_run ++ [Resume 1%nat; Resume 2%nat; Resume 0%nat]) init in
  outcome 0 c = Some (Returned (mkPdu 0 1 0 [x41] EmptyString)) /\
  outcome 1 c = Some (Returned (mkPdu 0 1 1 [x42] EmptyString)) /\
  outcome 2 c = Some (Returned (mkPdu 0 1 2 [x43] EmptyString)) /\
  message_dict c = ∅ /\
  listener c = Running.
Proof. vm_compute. done. Qed.

(** * Further properties of the transport *)

(** ** Incomplete and ambiguous frames *)

Section FramingFacts.
Import PyInt PyIntFacts.




End FramingFacts.



(** X2: frames are unambiguous: two requests whose encoded frames are equal
    have the same cid and the same payload. *)
Theorem encode_injective (i i' : Z) (data data' msg : bytes) :
  encode i data = Ok msg ->
  encode i' data' = Ok msg ->
  i = i' /\ data = data'.
Proof.
  intros H1 H2.
  pose proof (encode_decode i data msg [] false H1) as D1.
  pose proof (encode_decode i' data' msg [] false H2) as D2.
  rewrite D1 in D2. by injection D2 as -> ->.
Qed.

Lemma encode_injective_witness :
  encode 258 [x41] = Ok [x00; x00; x00; x03; x01; x02; x41] /\
  (258 = 258 /\ [x41] = [x41]).
Proof.
  assert (H1 : encode 258 [x41] = Ok [x00; x00; x00; x03; x01; x02; x41])
    by reflexivity.
  exact (conj H1 (encode_injective 258 258 [x41] [x41] _ H1 H1)).
Defined.

(** ** Counters, frames and calls along an execution *)

Section ExecutionFacts.
Context `{ApolloCodec}.

(** What resuming a call leaves alone, and what it does to the queues. *)
Lemma _write_pdu_resume_rest t c c' :
  _write_pdu_resume t c = Some c' ->
  tid c' = tid c /\ writer c' = writer c /\ disconnected c' = disconnected c /\
  (queues c' = queues c \/
   exists st m d rest,
     sends c !! t = Some st /\ s_cancel st = false /\
     queues c !! s_q st = Some (mkQueue m (d :: rest)) /\
     queues c' = <[s_q st := mkQueue m rest]> (queues c)).
Proof.
  unfold _write_pdu_resume. intros Hres.
  destruct (sends c !! t) as [st|] eqn:Ht; [|done].
  destruct (s_outcome st) eqn:Ho; [done|].
  destruct (wait_for st c) as [[aw c1]|] eqn:Hw; [|done].
  assert (Hc1 : tid c1 = tid c /\ writer c1 = writer c /\
                disconnected c1 = disconnected c /\
                (queues c1 = queues c \/
                 exists m d rest,
                   s_cancel st = false /\
                   queues c !! s_q st = Some (mkQueue m (d :: rest)) /\
                   queues c1 = <[s_q st := mkQueue m rest]> (queues c))).
  { unfold wait_for in Hw. destruct (s_cancel st) eqn:Hc; [by simplify_eq; auto|].
    destruct (queues c !! s_q st) as [[m [|d l]]|] eqn:Hq;
      try (destruct (s_deadline st <=? clock c); simplify_eq; by auto).
    simplify_eq. simpl. repeat split; try done. right. by exists m, d, l. }
  destruct Hc1 as (Ht1 & Hw1 & Hd1 & Hq1).
  assert (Hc' : tid c' = tid c1 /\ writer c' = writer c1 /\
                disconnected c' = disconnected c1 /\ queues c' = queues c1).
  { unfold _write_pdu_finish, bind, ret, raise, del_message in Hres.
    destruct aw as [rdata|e].
    - destruct (ParseFromString rdata); [|by simplify_eq].
      destruct (message_dict c1 !! s_cid st); by simplify_eq.
    - destruct e; try by simplify_eq.
      destruct (message_dict c1 !! s_cid st); by simplify_eq. }
  destruct Hc' as (-> & -> & -> & ->).
  repeat split; try done.
  destruct Hq1 as [?|(m & d & rest & ? & ? & ?)]; [by left|].
  right. by exists st, m, d, rest.
Qed.

(** Only a call touches the counters and the writer. *)
Lemma step_untouched c e :
  (forall pdu, e <> Call pdu) ->
  tid (step c e) = tid c /\ writer (step c e) = writer c /\
  length (queues (step c e)) = length (queues c).
Proof.
  intros Hne. destruct e as [pdu|bs| | |t|dt|]; try done.
  - by destruct (Hne pdu).
  - cbn [step]. destruct (_listener_iter c) as [c'|] eqn:Hit; [|done].
    by destruct (_listener_iter_frame _ _ Hit) as (_ & _ & ? & ? & _ & _ & ?).
  - cbn [step]. destruct (_write_pdu_resume t c) as [c'|] eqn:Hres; [|done].
    destruct (_write_pdu_resume_rest _ _ _ Hres) as (? & ? & _).
    by destruct (_write_pdu_resume_frame _ _ _ Hres) as (_ & _ & _ & _ & _ & ? & _).
Qed.

Lemma counters_run es :
  cid (run es init) = Z.of_nat (calls es) mod 65536 /\
  tid (run es init) = Z.of_nat (calls es) mod 4294967296.
Proof.
  induction es as [|e es [IHc IHt]] using rev_ind; [done|].
  rewrite run_snoc, calls_snoc. set (c := run es init) in *.
  assert (Hcase : (exists pdu, e = Call pdu) \/ (forall pdu, e <> Call pdu))
    by (destruct e; eauto).
  destruct Hcase as [[pdu ->]|Hne].
  - assert (Hc' : cid (step c (Call pdu)) = cid (allocated c) /\
                  tid (step c (Call pdu)) = tid (allocated c))
      by (rewrite step_Call; by destruct (encode _ _)).
    destruct Hc' as [-> ->].
    destruct (allocated_fields c) as (_ & _ & _ & _ & _ & _ & _ & _ & _ & -> & ->).
    pose proof (Z.mod_pos_bound (Z.of_nat (calls es)) 65536 ltac:(lia)).
    pose proof (Z.mod_pos_bound (Z.of_nat (calls es)) 4294967296 ltac:(lia)).
    replace (Z.of_nat (calls es + 1)) with (Z.of_nat (calls es) + 1) by lia.
    split.
    + rewrite <- (Z.add_mod_idemp_l (Z.of_nat (calls es))), <- IHc by lia.
      destruct (Z.eqb_spec (cid c) 65535) as [->|Hne]; [done|].
      rewrite Z.mod_small; lia.
    + rewrite <- (Z.add_mod_idemp_l (Z.of_nat (calls es))), <- IHt by lia.
      destruct (Z.eqb_spec (tid c) 4294967295) as [->|Hne]; [done|].
      rewrite Z.mod_small; lia.
  - destruct (step_same_calls c e Hne) as [_ ->].
    destruct (step_untouched c e Hne) as (-> & _).
    replace (match e with Call _ => 1%nat | _ => 0%nat end)
      with 0%nat by (destruct e; try done; by destruct (Hne pdu)).
    by rewrite Nat.add_0_r.
Qed.

Lemma counters_in_range es :
  0 <= cid (run es init) <= 65535 /\ 0 <= tid (run es init) <= 4294967295.
Proof.
  destruct (counters_run es) as [-> ->].
  pose proof (Z.mod_pos_bound (Z.of_nat (calls es)) 65536 ltac:(lia)).
  pose proof (Z.mod_pos_bound (Z.of_nat (calls es)) 4294967296 ltac:(lia)).
  lia.
Qed.

(** One frame, one queue and one suspended call per successful call, in the
    same order; each call waits under the cid its frame bears. *)
Lemma layout_run es :
  let c := run es init in
  length (queues c) = length (sends c) /\
  length (writer c) = length (sends c) /\
  forall t st, sends c !! t = Some st ->
    s_q st = t /\ 0 <= s_cid st <= 65535 /\
    exists msg data,
      reverse (writer c) !! t = Some msg /\ encode (s_cid st) data = Ok msg.
Proof.
  induction es as [|e es IH] using rev_ind; [by repeat split|].
  cbv zeta in *. rewrite run_snoc. set (c := run es init) in *.
  destruct IH as (Hq & Hw & Hs).
  assert (Hcase : (exists pdu, e = Call pdu) \/ (forall pdu, e <> Call pdu))
    by (destruct e; eauto).
  destruct Hcase as [[pdu ->]|Hne].
  - rewrite step_Call. destruct (encode _ _) as [msg|err] eqn:Henc.
    + unfold registered. cbn [queues sends writer with_sends with_message_dict
                               with_queues with_writer].
      rewrite !length_app. cbn [length]. split; [lia|]. split; [lia|].
      intros t st Ht. rewrite reverse_cons.
      apply lookup_app_Some in Ht as [Ht|[Hge Ht]].
      * destruct (Hs _ _ Ht) as (? & ? & msg' & data' & Hm & ?).
        split; [done|]. split; [done|]. exists msg', data'.
        split; [by apply lookup_app_l_Some|done].
      * destruct (t - length (sends c))%nat eqn:E; [|done].
        simpl in Ht. simplify_eq. cbn [s_q s_cid].
        assert (t = length (sends c)) as -> by lia.
        pose proof (counters_in_range es) as [Hc _]. fold c in Hc.
        split; [done|]. split; [lia|].
        eexists msg, _. split; [|exact Henc].
        rewrite <- Hw, <- length_reverse. by rewrite list_lookup_middle.
    + destruct (allocated_fields c) as (_ & -> & -> & -> & _).
      split; [done|]. split; [done|]. exact Hs.
  - destruct (step_same_calls c e Hne) as [[Hlen Hrel] _].
    destruct (step_untouched c e Hne) as (_ & -> & ->).
    rewrite Hlen. split; [done|]. split; [done|].
    intros t st' Ht. destruct (Hrel _ _ Ht) as (st & Hst & -> & -> & _). eauto.
Qed.

End ExecutionFacts.

(** X3: in every execution from a fresh client both counters equal the
    number of [_write_pdu] calls made so far, modulo 65536 for the cid and
    modulo 4294967296 for the tid: every call advances each of them exactly
    once, also a call that fails to encode, and nothing else changes them. *)
Theorem counters_track_calls `{ApolloCodec} (es : list Event) :
  cid (run es init) = Z.of_nat (calls es) mod 65536 /\
  tid (run es init) = Z.of_nat (calls es) mod 4294967296 /\
  0 <= cid (run es init) <= 65535 /\
  0 <= tid (run es init) <= 4294967295.
Proof.
  destruct (counters_run es) as [Hc Ht].
  destruct (counters_in_range es) as [Hcr Htr]. done.
Qed.

(** X4: in every execution from a fresh client, [_write_pdu] can fail before
    its [await] for one reason only: the serialized pdu is too long for the
    4-byte length field.  It then raises [OverflowError] with a tid and a
    cid consumed, nothing written and nothing registered; otherwise it
    writes the frame for its cid and suspends as the next call. *)
Theorem begin_fails_only_on_overflow `{ApolloCodec} (es : list Event) (pdu : ApolloPdu) :
  let c := run es init in
  let data := SerializeToString (set_transaction_id (tid c) pdu) in
  let len := Z.of_nat (length data) + 2 in
  _write_pdu_begin pdu c =
    (if len <? 4294967296
     then (registered (cid c) (PyInt.digits 4 len ++ PyInt.digits 2 (cid c) ++ data) c,
           Ok (length (sends c)))
     else (allocated c, Raise OverflowError)) /\
  writer (allocated c) = writer c /\
  message_dict (allocated c) = message_dict c /\
  queues (allocated c) = queues c /\
  sends (allocated c) = sends c.
Proof.
  intros c data len.
  destruct (counters_in_range es) as [Hc _]. fold c in Hc.
  destruct (allocated_fields c) as (Hd & Hq & Hs & Hw & _).
  split; [|done].
  rewrite _write_pdu_begin_eq. fold data.
  destruct (Z.ltb_spec len 4294967296).
  - by rewrite encode_ok by done.
  - by rewrite encode_overflow by done.
Qed.

(** X5: in every execution from a fresh client there is one written frame
    and one queue per call that reached its [await], in the order of the
    calls; call number [t] waits on queue [t], and the [t]-th frame handed
    to the writer is a well-formed frame bearing the cid, within 16 bits,
    under which that call waits. *)
Theorem frame_per_call `{ApolloCodec} (es : list Event) (t : nat) (st : SendTask) :
  let c := run es init in
  sends c !! t = Some st ->
  length (writer c) = length (sends c) /\
  length (queues c) = length (sends c) /\
  s_q st = t /\
  0 <= s_cid st <= 65535 /\
  exists msg data,
    reverse (writer c) !! t = Some msg /\
    encode (s_cid st) data = Ok msg /\
    decode msg false = Got (s_cid st, data) [].
Proof.
  intros c Ht. destruct (layout_run es) as (Hq & Hw & Hs). fold c in Hq, Hw, Hs.
  destruct (Hs _ _ Ht) as (? & ? & msg & data & Hm & Henc).
  do 4 (split; [done|]). exists msg, data. split; [done|]. split; [done|].
  rewrite <- (app_nil_r msg). by apply encode_decode.
Qed.

Lemma frame_per_call_witness :
  let c := run reversed_run init in
  sends c !! 2%nat = Some (mkSend 2 2 60 false None) /\
  exists msg data,
    reverse (writer c) !! 2%nat = Some msg /\
    encode 2 data = Ok msg /\
    decode msg false = Got (2, data) [].
Proof.
  intros c.
  assert (H1 : sends c !! 2%nat = Some (mkSend 2 2 60 false None)) by reflexivity.
  destruct (frame_per_call reversed_run 2%nat _ H1) as (_ & _ & _ & _ & Hex).
  exact (conj H1 Hex).
Defined.

(** ** Outcomes and queues along an execution *)

Section ResultFacts.
Context `{ApolloCodec}.

(** Where the outcome of a call comes from. *)
Lemma outcome_origin c e t o :
  outcome t (step c e) = Some o ->
  outcome t c = Some o \/
  (e = Resume t /\ outcome t c = None /\ _write_pdu_resume t c = Some (step c e)).
Proof.
  unfold outcome. intros Ho.
  destruct e as [pdu|bs| | |t0|dt|]; try by left.
  - left. rewrite step_Call in Ho. destruct (encode _ _) as [msg|err].
    + unfold registered in Ho. cbn [sends with_sends] in Ho.
      destruct (sends c !! t) as [st|] eqn:Ht.
      * by rewrite (lookup_app_l_Some _ _ _ _ Ht) in Ho.
      * apply lookup_ge_None in Ht. rewrite lookup_app_r in Ho by done.
        destruct (t - length (sends c))%nat; by simpl in Ho.
    + by destruct (allocated_fields c) as (_ & _ & <- & _).
  - left. cbn [step] in Ho. destruct (_listener_iter c) as [c'|] eqn:Hit; [|done].
    simpl in Ho. by destruct (_listener_iter_frame _ _ Hit) as (_ & <- & _).
  - cbn [step] in *. destruct (_write_pdu_resume t0 c) as [c'|] eqn:Hres; [|by left].
    simpl in *.
    destruct (_write_pdu_resume_frame _ _ _ Hres) as (st0 & o0 & Ht0 & Ho0 & Hs & _).
    rewrite Hs in Ho. destruct (decide (t0 = t)) as [->|Hne].
    + right. rewrite Ht0. simpl. by rewrite Ho0.
    + left. by rewrite list_lookup_insert_ne in Ho.
  - left. cbn [step] in Ho.
    destruct (cleanup_fields c) as (_ & _ & _ & _ & _ & _ & _ & _ & Hs & _).
    rewrite Hs, list_lookup_fmap in Ho.
    destruct (sends c !! t) as [st|]; [|done]. simpl in *.
    unfold cancel in Ho. destruct (s_outcome st) eqn:E; simpl in Ho; congruence.
Qed.

(** What a listener iteration does to the queues, with the room it found. *)
Lemma _listener_iter_put c c' :
  _listener_iter c = Some c' ->
  queues c' = queues c \/
  exists i data rest q qu,
    decode (reader c) (reader_eof c) = Got (i, data) rest /\
    message_dict c !! i = Some q /\
    queues c !! q = Some qu /\
    (0 <? maxsize qu) && (maxsize qu <=? Z.of_nat (length (items qu))) = false /\
    queues c' = <[q := mkQueue (maxsize qu) (items qu ++ [data])]> (queues c).
Proof.
  unfold _listener_iter. intros Hit.
  destruct (listener c) eqn:Hl; [| |done].
  - destruct (decode _ _) as [[i data] rest| |] eqn:Hdec; [| |done].
    + destruct (message_dict c !! i) as [q|] eqn:Hd; [|left; by simplify_eq].
      destruct (queues c !! q) as [qu|] eqn:Hq; [|left; by simplify_eq].
      unfold put_nowait in Hit.
      destruct (_ && _) eqn:Hfull; [left; by simplify_eq|].
      right. exists i, data, rest, q, qu. by simplify_eq.
    + left. by simplify_eq.
  - left. by simplify_eq.
Qed.

Lemma capacity_run es q qu :
  queues (run es init) !! q = Some qu ->
  maxsize qu = 1 /\ (length (items qu) <= 1)%nat.
Proof.
  revert q qu. induction es as [|e es IH] using rev_ind; intros q qu; [done|].
  rewrite run_snoc. set (c := run es init) in *.
  destruct e as [pdu|bs| | |t|dt|]; try by apply IH.
  - rewrite step_Call. destruct (encode _ _) as [msg|err].
    + unfold registered. cbn [queues with_sends with_message_dict with_queues].
      intros [Hq|[_ Hq]]%lookup_app_Some; [by eapply IH|].
      destruct (q - length (queues c))%nat; [|done]. simpl in Hq. simplify_eq.
      simpl. lia.
    + destruct (allocated_fields c) as (_ & -> & _). apply IH.
  - cbn [step]. destruct (_listener_iter c) as [c'|] eqn:Hit; simpl; [|by apply IH].
    destruct (_listener_iter_put _ _ Hit)
      as [->|(i & data & rest & q0 & qu0 & _ & _ & Hq0 & Hroom & ->)]; [by apply IH|].
    destruct (decide (q0 = q)) as [->|Hne].
    + rewrite list_lookup_insert_eq by by eapply lookup_lt_Some.
      intros [= <-]. cbn [maxsize items]. destruct (IH _ _ Hq0) as [Hm Hl].
      split; [done|]. rewrite Hm in Hroom. simpl in Hroom.
      apply Z.leb_gt in Hroom. rewrite length_app. simpl. lia.
    + rewrite list_lookup_insert_ne by done. apply IH.
  - cbn [step]. destruct (_write_pdu_resume t c) as [c'|] eqn:Hres; simpl; [|by apply IH].
    destruct (_write_pdu_resume_rest _ _ _ Hres)
      as (_ & _ & _ & [->|(st & m & d & rest & _ & _ & Hq0 & ->)]); [by apply IH|].
    destruct (decide (s_q st = q)) as [<-|Hne].
    + rewrite list_lookup_insert_eq by by eapply lookup_lt_Some.
      intros [= <-]. destruct (IH _ _ Hq0) as [Hm Hl]. simpl in *. split; [done|lia].
    + rewrite list_lookup_insert_ne by done. apply IH.
Qed.

End ResultFacts.

(** X7: in every execution from a fresh client every queue has size 1 and
    holds at most one response: the listener puts a response only into an
    empty queue (a full one raises [QueueFull]) and a resumed call takes
    it out. *)
Theorem queue_holds_one_response `{ApolloCodec}
    (es : list Event) (q : nat) (qu : Queue) :
  queues (run es init) !! q = Some qu ->
  maxsize qu = 1 /\ (length (items qu) <= 1)%nat.
Proof. apply capacity_run. Qed.

Lemma queue_holds_one_response_witness :
  let qu := mkQueue 1 [[x00; x00; x00; x01; x42]] in
  queues (run reversed_run init) !! 1%nat = Some qu /\
  maxsize qu = 1 /\ (length (items qu) <= 1)%nat.
Proof.
  intros qu.
  assert (H1 : queues (run reversed_run init) !! 1%nat = Some qu) by reflexivity.
  exact (conj H1 (queue_holds_one_response reversed_run 1%nat qu H1)).
Defined.

(** X8: calls do not disturb each other.  In an execution with distinct
    cids, resuming one call, whether it returns a response, times out or
    is cancelled, leaves every other live call suspended as it was, with
    its table entry, its queue and what it will be given unchanged. *)
Theorem resume_leaves_others `{ApolloCodec}
    (es : list Event) (t t' : nat) (st' : SendTask) (c' : Client) :
  let c := run es init in
  distinct_cids es init = true ->
  t <> t' ->
  sends c !! t' = Some st' ->
  s_outcome st' = None ->
  _write_pdu_resume t c = Some c' ->
  sends c' !! t' = Some st' /\
  message_dict c' !! s_cid st' = Some (s_q st') /\
  queues c' !! s_q st' = queues c !! s_q st' /\
  fst <$> wait_for st' c' = fst <$> wait_for st' c.
Proof.
  intros c Hdist Hne Ht' Ho' Hres.
  pose proof (Inv_run _ Hdist) as HI. fold c in HI.
  destruct (_write_pdu_resume_frame _ _ _ Hres)
    as (st & o & Ht & Ho & Hs & _ & Hqs & _ & _ & _ & _ & Hclk & _).
  assert (HI' : Inv c').
  { replace c' with (step c (Resume t)) by (cbn [step]; by rewrite Hres).
    by apply Inv_step. }
  assert (Hs' : sends c' !! t' = Some st')
    by (by rewrite Hs, list_lookup_insert_ne).
  assert (Hq : queues c' !! s_q st' = queues c !! s_q st').
  { apply Hqs. intros Heq. apply Hne. symmetry.
    by eapply (inv_queue_inj c HI). }
  split; [done|]. split; [by eapply (inv_live_entry c' HI')|]. split; [done|].
  unfold wait_for. rewrite Hq, Hclk. destruct (s_cancel st'); [done|].
  destruct (queues c !! s_q st') as [[m [|d l]]|]; try done;
    by destruct (s_deadline st' <=? clock c).
Qed.

Lemma resume_leaves_others_witness :
  let es := [Call ping; Call ping; Tick 60] in
  let c := run es init in
  distinct_cids es init = true /\
  exists c',
    _write_pdu_resume 0 c = Some c' /\
    outcome 0 c' = Some (Returned timeout_rpdu) /\
    sends c' !! 1%nat = Some (mkSend 1 1 60 false None) /\
    message_dict c' !! 1 = Some 1%nat.
Proof.
  intros es c.
  assert (H1 : distinct_cids es init = true) by (vm_compute; reflexivity).
  assert (H2 : sends c !! 1%nat = Some (mkSend 1 1 60 false None)) by reflexivity.
  destruct (_write_pdu_resume 0 c) as [c'|] eqn:Hres; [|vm_compute in Hres; discriminate].
  assert (H3 : (0 <> 1)%nat) by lia.
  destruct (resume_leaves_others es 0%nat 1%nat _ c' H1 H3 H2 eq_refl Hres)
    as (Hs & Hd & _).
  split; [exact H1|]. exists c'. split; [reflexivity|].
  split; [vm_compute in Hres; injection Hres as <-; reflexivity|].
  split; [exact Hs|exact Hd].
Defined.

(** ** After the listener has stopped *)

Section StoppedListener.
Context `{ApolloCodec}.

Lemma no_gain_refl c c' : queues c' = queues c -> no_gain c c'.
Proof. intros Hq q qu' Hqu. rewrite Hq in Hqu. by rewrite Hqu. Qed.

Lemma no_gain_trans c1 c2 c3 : no_gain c1 c2 -> no_gain c2 c3 -> no_gain c1 c3.
Proof.
  intros H12 H23 q qu3 Hq3. specialize (H23 _ _ Hq3).
  destruct (queues c2 !! q) as [qu2|] eqn:Hq2.
  - specialize (H12 _ _ Hq2). destruct (queues c1 !! q) as [qu1|].
    + by etrans.
    + rewrite H12 in H23. by apply suffix_nil_inv.
  - rewrite H23. destruct (queues c1 !! q); [apply suffix_nil|done].
Qed.

(** With the listener cancelled or stopped, no event brings it back and no
    event puts a response into a queue. *)
Lemma silent_step c e :
  listener c <> Running ->
  listener (step c e) <> Running /\
  (forall r, listener c = Stopped r -> listener (step c e) = Stopped r) /\
  no_gain c (step c e).
Proof.
  intros Hl. destruct e as [pdu|bs| | |t|dt|];
    try (split; [done|]; split; [done|]; by apply no_gain_refl).
  - rewrite step_Call. destruct (encode _ _) as [msg|err].
    + unfold registered. cbn [listener with_sends with_message_dict with_queues with_writer].
      destruct (allocated_fields c) as (_ & _ & _ & _ & _ & _ & -> & _).
      split; [done|]. split; [done|].
      intros q qu'. cbn [queues with_sends with_message_dict with_queues].
      intros [Hq|[Hge Hq]]%lookup_app_Some; [by rewrite Hq|].
      rewrite (lookup_ge_None_2 _ _ Hge).
      destruct (q - length (queues c))%nat; [|done]. simpl in Hq. by simplify_eq.
    + destruct (allocated_fields c) as (_ & Hq & _ & _ & _ & _ & -> & _).
      split; [done|]. split; [done|]. by apply no_gain_refl.
  - cbn [step]. unfold _listener_iter. destruct (listener c) eqn:Hlc; [done| |].
    + simpl. split; [done|]. split; [done|]. by apply no_gain_refl.
    + simpl. rewrite Hlc. split; [done|]. split; [done|]. by apply no_gain_refl.
  - cbn [step]. destruct (_write_pdu_resume t c) as [c'|] eqn:Hres; simpl;
      [|split; [done|]; split; [done|]; by apply no_gain_refl].
    destruct (_write_pdu_resume_frame _ _ _ Hres)
      as (_ & _ & _ & _ & _ & _ & _ & _ & -> & _).
    split; [done|]. split; [done|].
    destruct (_write_pdu_resume_rest _ _ _ Hres)
      as (_ & _ & _ & [Hq|(st & m & d & rest & _ & _ & Hq0 & Hq)]);
      [by apply no_gain_refl|].
    intros q qu'. rewrite Hq. destruct (decide (s_q st = q)) as [<-|Hne].
    + rewrite list_lookup_insert_eq by by eapply lookup_lt_Some.
      intros [= <-]. rewrite Hq0. simpl. by apply suffix_cons_r.
    + rewrite list_lookup_insert_ne by done. intros Hqu. by rewrite Hqu.
  - cbn [step]. unfold cleanup, _disconnect, _cancel_all_tasks. simpl.
    split; [by destruct (listener c)|]. split; [by intros r ->|].
    by apply no_gain_refl.
Qed.

Lemma silent_run es c :
  listener c <> Running ->
  listener (run es c) <> Running /\
  (forall r, listener c = Stopped r -> listener (run es c) = Stopped r) /\
  no_gain c (run es c).
Proof.
  revert c. induction es as [|e es IH]; intros c Hl.
  { split; [done|]. split; [done|]. by apply no_gain_refl. }
  destruct (silent_step c e Hl) as (Hl1 & Hs1 & Hg1).
  destruct (IH _ Hl1) as (Hl2 & Hs2 & Hg2).
  cbn [run fold_left]. fold (run es (step c e)).
  split; [done|]. split; [by intros r Hr; apply Hs2, Hs1|].
  by eapply no_gain_trans.
Qed.

(** A call made after the listener has stopped ends by timeout or by
    cancellation. *)
Lemma after_stop es0 es t o :
  distinct_cids (es0 ++ es) init = true ->
  listener (run es0 init) <> Running ->
  (length (sends (run es0 init)) <= t)%nat ->
  outcome t (run (es0 ++ es) init) = Some o ->
  o = Returned timeout_rpdu \/ o = Raised CancelledError.
Proof.
  intros Hdist Hl Hge. revert o Hdist.
  induction es as [|e es IH] using rev_ind; intros o Hdist Ho.
  { rewrite app_nil_r in Ho. unfold outcome in Ho.
    by rewrite (lookup_ge_None_2 _ _ Hge) in Ho. }
  rewrite app_assoc in Hdist, Ho.
  apply distinct_cids_snoc in Hdist as [Hdist _]. rewrite run_snoc in Ho.
  set (c := run (es0 ++ es) init) in *.
  destruct (outcome_origin _ _ _ _ Ho) as [Hold|(-> & Hnone & Hres)]; [by apply IH|].
  remember (step c (Resume t)) as c' eqn:Hc'. clear Hc'.
  pose proof (Inv_run _ Hdist) as HI. fold c in HI.
  destruct (_write_pdu_resume_frame _ _ _ Hres) as (st & _ & Ht & Hlive & _).
  destruct (layout_run (es0 ++ es)) as (_ & _ & Hlay). fold c in Hlay.
  destruct (Hlay _ _ Ht) as (Hq & _).
  destruct (layout_run es0) as (Hq0 & _).
  destruct (silent_run es _ Hl) as (_ & _ & Hgain).
  rewrite <- run_app in Hgain. fold c in Hgain.
  assert (Hempty : forall qu, queues c !! s_q st = Some qu -> items qu = []).
  { intros qu Hqu. specialize (Hgain _ _ Hqu).
    by rewrite lookup_ge_None_2 in Hgain by (cbv zeta in Hq0; lia). }
  assert (Hlt : (t < length (sends c))%nat) by by eapply lookup_lt_Some.
  destruct (s_cancel st) eqn:Hc.
  - right. rewrite (_write_pdu_resume_cancelled t st c) in Hres by done.
    injection Hres as <-. unfold outcome in Ho.
    cbn [sends with_sends] in Ho. rewrite list_lookup_insert_eq in Ho by done.
    simpl in Ho. congruence.
  - destruct (Z.leb_spec (s_deadline st) (clock c)) as [Hd|Hd].
    + left. rewrite (_write_pdu_resume_timeout t st c) in Hres by done.
      rewrite (inv_live_entry c HI t st Ht Hlive) in Hres.
      injection Hres as <-. unfold outcome in Ho.
      cbn [sends with_sends] in Ho. rewrite list_lookup_insert_eq in Ho by done.
      simpl in Ho. congruence.
    + by rewrite (_write_pdu_resume_suspended t st c) in Hres.
Qed.

End StoppedListener.

(** X9: once the listener has been cancelled or has left its loop (on EOF,
    a malformed length, a full queue or a cancellation) nothing starts it
    again and no queue is ever given another response: in every
    continuation each queue holds only what it already held. *)
Theorem stopped_listener_is_final `{ApolloCodec} (c : Client) (es : list Event) :
  listener c <> Running ->
  listener (run es c) <> Running /\
  (forall r, listener c = Stopped r -> listener (run es c) = Stopped r) /\
  no_gain c (run es c).
Proof. apply silent_run. Qed.

Lemma stopped_listener_is_final_witness :
  let c := run [Call ping; Eof; Listen] init in
  let es := [Receive [x00; x00; x00; x07; x00; x00; x00; x00; x00; x00; x41];
             Listen; Call ping; Listen] in
  listener c <> Running /\
  listener (run es c) = Stopped IncompleteReadError /\
  no_gain c (run es c).
Proof.
  intros c es.
  assert (H1 : listener c <> Running) by discriminate.
  destruct (stopped_listener_is_final c es H1) as (_ & Hs & Hg).
  exact (conj H1 (conj (Hs _ eq_refl) Hg)).
Defined.

(** X10: in an execution with distinct cids, a call made after the listener
    has stopped never gets a response: if it finishes, it returns the
    timeout rpdu or raises [CancelledError]. *)
Theorem calls_after_stop_time_out `{ApolloCodec}
    (es0 es : list Event) (t : nat) (o : Outcome) :
  distinct_cids (es0 ++ es) init = true ->
  listener (run es0 init) <> Running ->
  (length (sends (run es0 init)) <= t)%nat ->
  outcome t (run (es0 ++ es) init) = Some o ->
  o = Returned timeout_rpdu \/ o = Raised CancelledError.
Proof. apply after_stop. Qed.

Lemma calls_after_stop_time_out_witness :
  let es0 := [Receive [x00; x00; x00; x01; x00; x00]; Listen] in
  let es := [Call ping;
             Receive [x00; x00; x00; x07; x00; x00; x00; x00; x00; x00; x41];
             Listen; Tick 60; Resume 0%nat] in
  distinct_cids (es0 ++ es) init = true /\
  listener (run es0 init) = Stopped ValueError /\
  outcome 0 (run (es0 ++ es) init) = Some (Returned timeout_rpdu) /\
  (Returned timeout_rpdu = Returned timeout_rpdu \/
   Returned timeout_rpdu = Raised CancelledError).
Proof.
  intros es0 es.
  assert (H1 : distinct_cids (es0 ++ es) init = true) by (vm_compute; reflexivity).
  assert (H2 : listener (run es0 init) <> Running) by discriminate.
  assert (H3 : (length (sends (run es0 init)) <= 0)%nat) by (simpl; lia).
  assert (H4 : outcome 0 (run (es0 ++ es) init) = Some (Returned timeout_rpdu))
    by reflexivity.
  exact (conj H1 (conj eq_refl (conj H4
    (calls_after_stop_time_out es0 es 0%nat _ H1 H2 H3 H4)))).
Defined.

(** X11: [cleanup] discards what the listener has not read yet: after it,
    the listener never runs again, so a response still in the reader is
    never put into a queue, whatever happens next. *)
Theorem cleanup_discards_unread `{ApolloCodec} (c : Client) (es : list Event) :
  listener (run es (cleanup c)) <> Running /\
  no_gain c (run es (cleanup c)) /\
  reader (cleanup c) = reader c.
Proof.
  assert (Hl : listener (cleanup c) <> Running)
    by (unfold cleanup, _disconnect, _cancel_all_tasks; simpl; by destruct (listener c)).
  destruct (silent_run es _ Hl) as (Hl' & _ & Hg).
  split; [done|]. split; [|done].
  eapply no_gain_trans; [|exact Hg]. by apply no_gain_refl.
Qed.

(** ** A second response, and a whole exchange *)

Section ExchangeFacts.
Context `{ApolloCodec}.

Lemma _listener_iter_deliver c i data rest q :
  listener c = Running ->
  decode (reader c) (reader_eof c) = Got (i, data) rest ->
  message_dict c !! i = Some q ->
  queues c !! q = Some (mkQueue 1 []) ->
  _listener_iter c
  = Some (with_queues (<[q := mkQueue 1 [data]]> (queues c)) (with_reader rest c)).
Proof.
  intros Hl Hdec Hd Hq. unfold _listener_iter. by rewrite Hl, Hdec, Hd, Hq.
Qed.

Lemma _listener_iter_full c i data rest q d0 :
  listener c = Running ->
  decode (reader c) (reader_eof c) = Got (i, data) rest ->
  message_dict c !! i = Some q ->
  queues c !! q = Some (mkQueue 1 [d0]) ->
  _listener_iter c = Some (with_listener (Stopped QueueFull) (with_reader rest c)).
Proof.
  intros Hl Hdec Hd Hq. unfold _listener_iter. by rewrite Hl, Hdec, Hd, Hq.
Qed.

End ExchangeFacts.

(** X12: two responses for one call, read in one go, stop the listener.  In
    an execution with distinct cids, when two frames bearing the cid of a
    live call are in the stream's buffer together, the call's queue being
    empty and its deadline not reached, the listener reads both without
    waiting in between: the first is put into the call's queue and the
    second raises [QueueFull], which the listener's bare [except] turns
    into its end; the call is still given the first payload. *)
Theorem second_response_stops_listener `{ApolloCodec}
    (es : list Event) (t : nat) (st : SendTask) (d1 d2 f1 f2 rest : bytes) :
  let c := run es init in
  distinct_cids es init = true ->
  listener c = Running ->
  sends c !! t = Some st ->
  s_outcome st = None ->
  s_cancel st = false ->
  (forall qu, queues c !! s_q st = Some qu -> items qu = []) ->
  clock c < s_deadline st ->
  encode (s_cid st) d1 = Ok f1 ->
  encode (s_cid st) d2 = Ok f2 ->
  reader c = f1 ++ f2 ++ rest ->
  let c2 := run [Listen; Listen] c in
  listener c2 = Stopped QueueFull /\
  queues c2 !! s_q st = Some (mkQueue 1 [d1]) /\
  reader c2 = rest /\
  clock c2 = clock c /\
  exists c3, _write_pdu_resume t c2 = Some c3 /\ outcome t c3 = Some (parsed d1).
Proof.
  intros c Hdist Hl Ht Ho Hc Hempty Hclk Hf1 Hf2 Hrd c2.
  pose proof (Inv_run _ Hdist) as HI. fold c in HI.
  pose proof (inv_live_entry c HI t st Ht Ho) as Hentry.
  pose proof (inv_queue_alloc c HI t st Ht) as Halloc.
  destruct (lookup_lt_is_Some_2 _ _ Halloc) as [[m l] Hq].
  destruct (capacity_run es _ _ Hq) as [Hm _]. fold c in Hq.
  pose proof (Hempty _ Hq) as Hl0. simpl in Hm, Hl0. subst m l.
  assert (H1 : _listener_iter c
               = Some (with_queues (<[s_q st := mkQueue 1 [d1]]> (queues c))
                         (with_reader (f2 ++ rest) c))).
  { eapply _listener_iter_deliver; eauto. rewrite Hrd. by apply encode_decode. }
  set (c1 := with_queues (<[s_q st := mkQueue 1 [d1]]> (queues c))
               (with_reader (f2 ++ rest) c)) in *.
  assert (Hq1 : queues c1 !! s_q st = Some (mkQueue 1 [d1]))
    by (subst c1; simpl; by rewrite list_lookup_insert_eq).
  assert (H2 : _listener_iter c1
               = Some (with_listener (Stopped QueueFull) (with_reader rest c1))).
  { eapply _listener_iter_full; eauto. by apply encode_decode. }
  assert (Hc2 : c2 = with_listener (Stopped QueueFull) (with_reader rest c1)).
  { subst c2. unfold run. cbn [fold_left step]. rewrite H1. simpl default.
    by rewrite H2. }
  rewrite Hc2. cbn [listener queues reader clock with_listener with_reader].
  split; [done|]. split; [done|]. split; [done|]. split; [done|].
  rewrite (_write_pdu_resume_item t st _ 1 d1 []) by done. cbv zeta.
  cbn [message_dict with_listener with_reader with_queues]. subst c1.
  cbn [message_dict with_queues with_reader]. rewrite Hentry. unfold parsed, outcome.
  assert (Hlt : (t < length (sends c))%nat) by by eapply lookup_lt_Some.
  destruct (ParseFromString d1); eexists; (split; [done|]);
    cbn [sends with_sends with_message_dict with_queues with_listener with_reader];
    by rewrite list_lookup_insert_eq.
Qed.

Lemma second_response_stops_listener_witness :
  let f1 := [x00; x00; x00; x07; x00; x00; x00; x00; x00; x00; x41] in
  let f2 := [x00; x00; x00; x07; x00; x00; x00; x00; x00; x00; x42] in
  let es := [Call ping; Receive (f1 ++ f2 ++ [])] in
  let c2 := run [Listen; Listen] (run es init) in
  distinct_cids es init = true /\
  clock (run es init) < 60 /\
  listener c2 = Stopped QueueFull /\
  queues c2 !! 0%nat = Some (mkQueue 1 [[x00; x00; x00; x00; x41]]) /\
  exists c3, _write_pdu_resume 0 c2 = Some c3 /\
             outcome 0 c3 = Some (parsed [x00; x00; x00; x00; x41]).
Proof.
  intros f1 f2 es c2.
  assert (H4 : clock (run es init) < s_deadline (mkSend 0 0 60 false None))
    by reflexivity.
  assert (H1 : distinct_cids es init = true) by (vm_compute; reflexivity).
  assert (H2 : sends (run es init) !! 0%nat = Some (mkSend 0 0 60 false None))
    by reflexivity.
  assert (H3 : forall qu, queues (run es init) !! s_q (mkSend 0 0 60 false None)
                          = Some qu -> items qu = [])
    by (intros qu Hqu; vm_compute in Hqu; injection Hqu as <-; reflexivity).
  destruct (second_response_stops_listener es 0%nat _
              [x00; x00; x00; x00; x41] [x00; x00; x00; x00; x42] f1 f2 []
              H1 eq_refl H2 eq_refl eq_refl H3 H4 eq_refl eq_refl eq_refl)
    as (Hl & Hq & _ & _ & Hex).
  exact (conj H1 (conj H4 (conj Hl (conj Hq Hex)))).
Defined.

(** X13: a whole exchange.  On a client whose listener runs, whose reader is
    empty and whose next cid is not in the table, a call whose request
    encodes, answered by a frame bearing its cid, hands the request frame
    to the writer, is given exactly the response payload (parsed), and
    leaves the reader empty, the listener running and, when the response
    parses, the table as it found it. *)
Theorem request_response_exchange `{ApolloCodec}
    (c : Client) (pdu : ApolloPdu) (msg resp frame : bytes) :
  listener c = Running ->
  reader c = [] ->
  message_dict c !! cid c = None ->
  encode (cid c) (SerializeToString (set_transaction_id (tid c) pdu)) = Ok msg ->
  encode (cid c) resp = Ok frame ->
  let t := length (sends c) in
  let c' := run [Call pdu; Receive frame; Listen; Resume t] c in
  outcome t c' = Some (parsed resp) /\
  writer c' = msg :: writer c /\
  reader c' = [] /\
  listener c' = Running /\
  (forall r, ParseFromString resp = Some r -> message_dict c' = message_dict c).
Proof.
  intros Hl Hrd Hfree Hreq Hresp t c'.
  set (i := cid c) in *. set (q := length (queues c)).
  set (st := mkSend i q (clock c + 60) false None).
  set (c1 := registered i msg c).
  assert (Hc1 : step c (Call pdu) = c1) by (rewrite step_Call; fold i; by rewrite Hreq).
  set (c2 := with_reader (reader c1 ++ frame) c1).
  assert (Hl1 : listener c1 = Running).
  { subst c1. unfold registered. cbn [listener with_sends with_message_dict with_queues with_writer].
    by destruct (allocated_fields c) as (_ & _ & _ & _ & _ & _ & -> & _). }
  assert (Hr1 : reader c1 = []).
  { subst c1. unfold registered. cbn [reader with_sends with_message_dict with_queues with_writer].
    by destruct (allocated_fields c) as (_ & _ & _ & _ & -> & _). }
  assert (Hd1 : message_dict c1 = <[i := q]> (message_dict c)) by done.
  assert (Hq1 : queues c1 = queues c ++ [mkQueue 1 []]) by done.
  assert (Hs1 : sends c1 = sends c ++ [st]) by done.
  assert (Hw1 : writer c1 = msg :: writer c) by done.
  assert (H3 : _listener_iter c2
               = Some (with_queues (<[q := mkQueue 1 [resp]]> (queues c2))
                         (with_reader [] c2))).
  { eapply (_listener_iter_deliver c2 i resp [] q); subst c2;
      cbn [listener reader reader_eof message_dict queues with_reader]; try done.
    - rewrite Hr1. simpl. rewrite <- (app_nil_r frame). by apply encode_decode.
    - by rewrite Hd1, lookup_insert_eq.
    - rewrite Hq1. by apply list_lookup_middle. }
  set (c3 := with_queues (<[q := mkQueue 1 [resp]]> (queues c2)) (with_reader [] c2)) in *.
  assert (Hc' : c' = default c3 (_write_pdu_resume t c3)).
  { subst c'. unfold run. cbn [fold_left]. rewrite Hc1. cbn [step]. fold c2.
    by rewrite H3. }
  assert (Ht3 : sends c3 !! t = Some st)
    by (subst c3 c2; cbn [sends with_queues with_reader]; rewrite Hs1;
        by apply list_lookup_middle).
  assert (Hq3 : queues c3 !! s_q st = Some (mkQueue 1 [resp])).
  { subst c3 c2. cbn [queues with_queues with_reader s_q st]. rewrite Hq1.
    apply list_lookup_insert_eq. rewrite length_app. simpl. subst q. lia. }
  assert (Hd3 : message_dict c3 !! s_cid st = Some q)
    by (subst c3 c2; cbn [message_dict with_queues with_reader s_cid st];
        by rewrite Hd1, lookup_insert_eq).
  rewrite (_write_pdu_resume_item t st c3 1 resp []) in Hc' by done.
  cbv zeta in Hc'. rewrite Hd3 in Hc'. unfold parsed, outcome.
  assert (Hlt : (t < length (sends c3))%nat) by by eapply lookup_lt_Some.
  destruct (ParseFromString resp) as [r|]; simpl in Hc'; rewrite Hc';
    cbn [sends writer reader listener message_dict
         with_sends with_message_dict with_queues with_reader];
    rewrite list_lookup_insert_eq by done;
    (split; [done|]); (split; [done|]); (split; [done|]); (split; [done|]);
    [|done].
  intros r' _. subst c3 c2. cbn [message_dict with_queues with_reader s_cid st].
  rewrite ?Hd1. by apply delete_insert_id.
Qed.

Lemma request_response_exchange_witness :
  let frame := [x00; x00; x00; x07; x00; x00; x00; x00; x00; x00; x50] in
  let c' := run [Call ping; Receive frame; Listen; Resume 0%nat] init in
  encode (cid init) [x00; x00; x00; x00; x50] = Ok frame /\
  outcome 0 c' = Some (parsed [x00; x00; x00; x00; x50]) /\
  message_dict c' = message_dict init.
Proof.
  intros frame c'.
  assert (H1 : encode (cid init) [x00; x00; x00; x00; x50] = Ok frame) by reflexivity.
  assert (H0 : encode (cid init)
                 (SerializeToString (set_transaction_id (tid init) ping)) = Ok frame)
    by reflexivity.
  destruct (request_response_exchange init ping frame [x00; x00; x00; x00; x50] frame
              eq_refl eq_refl eq_refl H0 H1) as (Ho & _ & _ & _ & Hd).
  exact (conj H1 (conj Ho (Hd (mkPdu 0 1 0 [x50] EmptyString) eq_refl))).
Defined.

(** ** The listener on what it has received *)

Section ListenerProgress.
Context `{ApolloCodec}.

Lemma readexactly_Got n (buf : bytes) eof d r :
  readexactly n buf eof = Got d r ->
  0 <= n <= Z.of_nat (length buf) /\
  d = take (Z.to_nat n) buf /\ r = drop (Z.to_nat n) buf.
Proof.
  unfold readexactly.
  destruct (Z.ltb_spec n 0); [done|].
  destruct (Z.ltb_spec (Z.of_nat (length buf)) n); [by destruct eof|].
  intros [= <- <-]. repeat split; lia.
Qed.

Lemma decode_Got_length buf eof i data rest :
  decode buf eof = Got (i, data) rest ->
  (length rest + length data + 6 = length buf)%nat.
Proof.
  unfold decode.
  destruct (readexactly 4 buf eof) as [lb b1| |] eqn:R1; [|done|done].
  destruct (readexactly 2 b1 eof) as [cb b2| |] eqn:R2; [|done|done].
  destruct (readexactly _ b2 eof) as [d b3| |] eqn:R3; [|done|done].
  intros [= _ <- <-].
  apply readexactly_Got in R1 as (H1 & _ & ->).
  apply readexactly_Got in R2 as (H2 & _ & ->).
  apply readexactly_Got in R3 as (H3 & -> & ->).
  rewrite !length_drop in *. rewrite length_take, !length_drop. lia.
Qed.

(** An iteration either consumes a whole frame, of six bytes or more, or
    ends the listener. *)
Lemma _listener_iter_progress c c' :
  _listener_iter c = Some c' ->
  (listener c' = Running /\ (length (reader c') + 6 <= length (reader c))%nat) \/
  (exists e, listener c' = Stopped e).
Proof.
  unfold _listener_iter. intros Hit.
  destruct (listener c) eqn:Hl; [| |done].
  - destruct (decode _ _) as [[i data] rest| |] eqn:Hdec; [| |done].
    + apply decode_Got_length in Hdec.
      destruct (message_dict c !! i) as [q|];
        [|simplify_eq; left; simpl; split; [done|lia]].
      destruct (queues c !! q) as [qu|];
        [|simplify_eq; left; simpl; split; [done|lia]].
      destruct (put_nowait data qu); simplify_eq; [|right; by eexists].
      left. simpl. split; [done|lia].
    + simplify_eq. right. by eexists.
  - simplify_eq. right. by eexists.
Qed.

Lemma listens_idle n c :
  _listener_iter c = None -> run (replicate n Listen) c = c.
Proof.
  intros Hit. induction n as [|n IH]; [done|].
  cbn [replicate run fold_left step]. rewrite Hit. exact IH.
Qed.

Lemma listens_drain n c :
  (length (reader c) < 6 * n)%nat ->
  _listener_iter (run (replicate n Listen) c) = None.
Proof.
  revert c. induction n as [|n IH]; intros c Hlen; [lia|].
  cbn [replicate run fold_left step].
  fold (run (replicate n Listen) (default c (_listener_iter c))).
  destruct (_listener_iter c) as [c'|] eqn:Hit; simpl.
  - destruct (_listener_iter_progress _ _ Hit) as [[Hl Hr]|[e He]].
    + apply IH. lia.
    + assert (Hidle : _listener_iter c' = None)
        by (unfold _listener_iter; by rewrite He).
      by rewrite listens_idle.
  - by rewrite listens_idle.
Qed.

End ListenerProgress.

(** X14: the listener cannot run on without input.  Every iteration that
    leaves it running takes a whole frame, at least six bytes, out of the
    reader; so on the bytes received so far, after more than a sixth of
    their number of iterations the listener waits for more bytes or has
    stopped, and further iterations change nothing. *)
Theorem listener_drains `{ApolloCodec} (c : Client) (n k : nat) :
  (length (reader c) < 6 * n)%nat ->
  _listener_iter (run (replicate n Listen) c) = None /\
  run (replicate k Listen) (run (replicate n Listen) c) = run (replicate n Listen) c.
Proof.
  intros Hlen. pose proof (listens_drain n c Hlen) as Hnone.
  split; [done|]. by apply listens_idle.
Qed.

Lemma listener_drains_witness :
  let c := run [Call ping;
                Receive [x00; x00; x00; x07; x00; x00; x00; x00; x00; x00; x41;
                         x00; x00; x00; x02; x00; x09; x00]] init in
  (length (reader c) < 6 * 4)%nat /\
  _listener_iter (run (replicate 4 Listen) c) = None /\
  reader (run (replicate 4 Listen) c) = [x00].
Proof.
  intros c.
  assert (H1 : (length (reader c) < 6 * 4)%nat) by (simpl; lia).
  destruct (listener_drains c 4 0 H1) as [Hn _].
  exact (conj H1 (conj Hn eq_refl)).
Defined.

(** ** After a timeout, after a response that does not parse *)

(** X15: a reply that comes after its call has timed out changes nothing.
    In an execution with distinct cids, when a call times out and a frame
    bearing its cid arrives afterwards, the listener drops the frame: the
    table, the queues and the calls are as they were right after the
    timeout, the call keeps its timeout result and the listener runs on. *)
Theorem late_reply_after_timeout `{ApolloCodec}
    (es : list Event) (t : nat) (st : SendTask) (d frame : bytes) :
  let c := run es init in
  distinct_cids es init = true ->
  listener c = Running ->
  reader c = [] ->
  sends c !! t = Some st ->
  s_outcome st = None ->
  s_cancel st = false ->
  (forall qu, queues c !! s_q st = Some qu -> items qu = []) ->
  s_deadline st <= clock c ->
  encode (s_cid st) d = Ok frame ->
  let c1 := run [Resume t] c in
  let c2 := run [Resume t; Receive frame; Listen] c in
  outcome t c1 = Some (Returned timeout_rpdu) /\
  message_dict c1 !! s_cid st = None /\
  c2 = c1 /\
  listener c2 = Running /\
  reader c2 = [].
Proof.
  intros c Hdist Hl Hrd Ht Ho Hc Hq Hd Henc c1 c2.
  pose proof (Inv_run _ Hdist) as HI. fold c in HI.
  pose proof (inv_live_entry c HI t st Ht Ho) as Hentry.
  assert (Hlt : (t < length (sends c))%nat) by by eapply lookup_lt_Some.
  assert (Hc1 : c1 = with_sends (<[t := finished (Returned timeout_rpdu) st]> (sends c))
                       (with_message_dict (delete (s_cid st) (message_dict c)) c)).
  { subst c1. unfold run. cbn [fold_left step].
    rewrite (_write_pdu_resume_timeout t st c) by done. by rewrite Hentry. }
  assert (H2 : c2 = default (with_reader (reader c1 ++ frame) c1)
                      (_listener_iter (with_reader (reader c1 ++ frame) c1))) by done.
  assert (Hr1 : reader c1 = []) by (by rewrite Hc1).
  assert (Hl1 : listener c1 = Running) by (by rewrite Hc1).
  assert (Hd1 : message_dict c1 !! s_cid st = None)
    by (rewrite Hc1; cbn [message_dict with_sends with_message_dict];
        apply lookup_delete_eq).
  assert (Hit : _listener_iter (with_reader (reader c1 ++ frame) c1)
                = Some (with_reader [] (with_reader (reader c1 ++ frame) c1))).
  { unfold _listener_iter. cbn [listener reader reader_eof message_dict with_reader].
    rewrite Hl1, Hr1. simpl app. rewrite <- (app_nil_r frame) at 1.
    rewrite (encode_decode _ _ _ [] _ Henc). by rewrite Hd1. }
  rewrite Hit in H2. simpl in H2.
  assert (Hc2 : c2 = c1).
  { rewrite H2. destruct c1. simpl in *. by subst. }
  split.
  { rewrite Hc1. unfold outcome. cbn [sends with_sends].
    by rewrite list_lookup_insert_eq. }
  split; [done|]. split; [done|]. by rewrite Hc2.
Qed.

Lemma late_reply_after_timeout_witness :
  let es := [Call ping; Tick 61] in
  let frame := [x00; x00; x00; x07; x00; x00; x00; x00; x00; x00; x41] in
  let c2 := run [Resume 0%nat; Receive frame; Listen] (run es init) in
  distinct_cids es init = true /\
  encode 0 [x00; x00; x00; x00; x41] = Ok frame /\
  outcome 0 c2 = Some (Returned timeout_rpdu) /\
  message_dict c2 !! 0 = None /\
  listener c2 = Running.
Proof.
  intros es frame c2.
  assert (H1 : distinct_cids es init = true) by (vm_compute; reflexivity).
  assert (H2 : sends (run es init) !! 0%nat = Some (mkSend 0 0 60 false None))
    by reflexivity.
  assert (H3 : forall qu, queues (run es init) !! s_q (mkSend 0 0 60 false None)
                          = Some qu -> items qu = [])
    by (intros qu Hqu; vm_compute in Hqu; injection Hqu as <-; reflexivity).
  assert (H4 : s_deadline (mkSend 0 0 60 false None) <= clock (run es init))
    by (vm_compute; discriminate).
  assert (H5 : encode (s_cid (mkSend 0 0 60 false None)) [x00; x00; x00; x00; x41]
               = Ok frame) by reflexivity.
  destruct (late_reply_after_timeout es 0%nat _ [x00; x00; x00; x00; x41] frame
              H1 eq_refl eq_refl H2 eq_refl eq_refl H3 H4 H5)
    as (Ho & Hd & Heq & Hl & _).
  fold c2 in Heq, Hl. rewrite <- Heq in Ho, Hd.
  exact (conj H1 (conj H5 (conj Ho (conj Hd Hl)))).
Defined.

(** X16: a call that ends with an exception leaves its entry behind.  In an
    execution with distinct cids, a call resumed with a response that does
    not parse raises [DecodeError] before [del self.message_dict[cid]] is
    reached: its cid still leads to its queue afterwards, and the table is
    unchanged, although the call has finished. *)
Theorem undecodable_response_keeps_entry `{ApolloCodec}
    (es : list Event) (t : nat) (st : SendTask) (m : Z) (d : bytes) (rest : list bytes) :
  let c := run es init in
  distinct_cids es init = true ->
  sends c !! t = Some st ->
  s_outcome st = None ->
  s_cancel st = false ->
  queues c !! s_q st = Some (mkQueue m (d :: rest)) ->
  ParseFromString d = None ->
  exists c',
    _write_pdu_resume t c = Some c' /\
    outcome t c' = Some (Raised DecodeError) /\
    message_dict c' = message_dict c /\
    message_dict c' !! s_cid st = Some (s_q st) /\
    live_cid c' (s_cid st) = false.
Proof.
  intros c Hdist Ht Ho Hc Hq Hparse.
  pose proof (Inv_run _ Hdist) as HI. fold c in HI.
  pose proof (inv_live_entry c HI t st Ht Ho) as Hentry.
  assert (Hlt : (t < length (sends c))%nat) by by eapply lookup_lt_Some.
  eexists. split.
  { rewrite (_write_pdu_resume_item t st c m d rest) by done. cbv zeta.
    by rewrite Hparse. }
  unfold outcome. cbn [sends message_dict with_sends with_queues].
  rewrite list_lookup_insert_eq by done.
  split; [done|]. split; [done|]. split; [done|].
  apply live_cid_fresh_live. intros t' st' Ht' Hlive' Heq.
  cbn [sends with_sends with_queues] in Ht'.
  destruct (decide (t = t')) as [<-|Hne].
  - rewrite list_lookup_insert_eq in Ht' by done. by simplify_eq.
  - rewrite list_lookup_insert_ne in Ht' by done.
    apply Hne. eapply (inv_queue_inj c HI); eauto.
    pose proof (inv_live_entry c HI t' st' Ht' Hlive') as E.
    rewrite Heq, Hentry in E. by injection E.
Qed.

Lemma undecodable_response_keeps_entry_witness :
  let es := [Call ping; Receive [x00; x00; x00; x03; x00; x00; x41]; Listen] in
  let c := run es init in
  distinct_cids es init = true /\
  ParseFromString [x41] = None /\
  exists c',
    _write_pdu_resume 0 c = Some c' /\
    outcome 0 c' = Some (Raised DecodeError) /\
    message_dict c' !! 0 = Some 0%nat.
Proof.
  intros es c.
  assert (H1 : distinct_cids es init = true) by (vm_compute; reflexivity).
  assert (H2 : sends c !! 0%nat = Some (mkSend 0 0 60 false None)) by reflexivity.
  assert (H3 : queues c !! s_q (mkSend 0 0 60 false None) = Some (mkQueue 1 [[x41]]))
    by reflexivity.
  assert (H4 : ParseFromString [x41] = None) by reflexivity.
  destruct (undecodable_response_keeps_entry es 0%nat _ 1 [x41] []
              H1 H2 eq_refl eq_refl H3 H4) as (c' & Hr & Ho & _ & Hd & _).
  split; [exact H1|]. split; [exact H4|].
  exists c'. split; [exact Hr|]. split; [exact Ho|exact Hd].
Defined.
